(** * Nexus worker: session upload job and job scheduler

    A shallow embedding of the worker's core:
    - [jobs/base.py]: [JobResult], [Job.is_due], [Job.mark_run];
    - [jobs/session_upload.py]: [SessionUploadJob] ([run], [_process_agent],
      [_get_active_sessions], [_find_completed_sessions],
      [_extract_session_id], [_upload_session], [_archive_session]);
    - [worker/scheduler.py]: [run_job].

    The Python code acts on the file system, the network, the wall clock and
    the logger.  These are one explicit [world]: a flat map from paths to
    nodes, a clock reading, and the trace of what was done so far (log
    records, HTTP requests with their outcome, directory creations, file
    moves, [mark_run] calls).  Methods are computations in a state-and-
    exception monad [M] over that world; [try]/[except] is [try_except]. *)

From Stdlib Require Import Ascii.
From stdpp Require Import gmap strings list fin_maps pretty.

Local Open Scope Z_scope.

(** ** Paths and file-system nodes *)

(** A [pathlib.Path], as the list of its components from the root.
    [Path(agent_config.sessions_dir)] is taken as already split. *)
Abbreviation path := (list string).

(** [path / name] *)
Definition path_join (p : path) (name : string) : path := p ++ [name].

(** [path.name]: the final component. *)
Definition path_name (p : path) : string := default "" (last p).

(** [str(path)] *)
Definition str_path (p : path) : string :=
  foldr (λ c acc, "/" +:+ c +:+ acc) "" p.

(** What [stat] and [read_text(encoding="utf-8")] see of a regular file:
    its size in bytes and its decoded text, [None] when the bytes are not
    valid UTF-8. *)
Record file_data := FileData {
  st_size : Z;
  text : option string;
}.

Inductive node :=
| File (fd : file_data)
| Dir.

(** ** Exceptions *)

(** The instances of Python's [Exception] the worker can meet, which is what
    its [except Exception] clauses catch.  Interruptions of the process
    ([KeyboardInterrupt], [SystemExit]) are not exceptions of this kind and
    are outside the model. *)
Inductive exn :=
| FileNotFoundError (p : path)
| FileExistsError (p : path)
| IsADirectoryError (p : path)
| ShutilError (p : path)
| UnicodeDecodeError
| JSONDecodeError (msg : string)
| RequestException (msg : string)
| Exception (msg : string).

(** [str(e)].  For a decoding error this is the start of the message: the
    byte, the position and the reason that follow it depend on the bytes of
    the file, which the file system here does not hold. *)
Definition str_exn (e : exn) : string :=
  match e with
  | FileNotFoundError p =>
      "[Errno 2] No such file or directory: '" +:+ str_path p +:+ "'"
  | FileExistsError p => "[Errno 17] File exists: '" +:+ str_path p +:+ "'"
  | IsADirectoryError p => "[Errno 21] Is a directory: '" +:+ str_path p +:+ "'"
  | ShutilError p => "Destination path '" +:+ str_path p +:+ "' already exists"
  | UnicodeDecodeError => "'utf-8' codec can't decode byte"
  | JSONDecodeError msg => msg
  | RequestException msg => msg
  | Exception msg => msg
  end.

(** [isinstance(e, requests.RequestException)] *)
Definition is_RequestException (e : exn) : bool :=
  match e with RequestException _ => true | _ => false end.

(** ** The world *)

Inductive level := DEBUG | INFO | WARNING | ERROR.

(** The upload request: [POST url?code=...] with the JSON payload. *)
Record request := Request {
  url : string;
  code : string;
  agentId : string;
  sessionId : string;
  transcript : string;
}.

(** What [requests.post] comes back with: a response, or a
    [requests.RequestException] (connection error, timeout, ...). *)
Inductive outcome :=
| Response (status_code : Z) (body : string)
| TransportFailure (msg : string).

Inductive event :=
| EvLog (lvl : level) (msg : string)
| EvPost (rq : request) (o : outcome)
| EvMkdir (p : path)
| EvMove (src dst : path)
| EvMarkRun (job_id : string).

(** [clock] is [datetime.now()], in microseconds. *)
Record world := World {
  fs : gmap path node;
  clock : Z;
  trace : list event;
}.

(** The result of [json.load]: only whether the document is an object, and
    then its keys, matters to the worker. *)
Inductive json_value :=
| JObject (keys : list string)
| JNotObject.

(** The collaborators the worker does not implement: the remote endpoint,
    which answers a request knowing everything that happened before, and
    the JSON parser. *)
Class Environment := {
  post_outcome : list event → request → outcome;
  json_loads : string → json_value + string;
}.

(** ** The monad *)

Inductive res (A : Type) :=
| Ok (a : A)
| Err (e : exn).
Arguments Ok {A} a.
Arguments Err {A} e.

Definition M (A : Type) : Type := world → res A * world.

Definition ret {A} (a : A) : M A := λ w, (Ok a, w).

Definition raise {A} (e : exn) : M A := λ w, (Err e, w).

Definition bind {A B} (m : M A) (k : A → M B) : M B :=
  λ w, match m w with
       | (Ok a, w') => k a w'
       | (Err e, w') => (Err e, w')
       end.

Notation "x <- m ;; k" := (bind m (λ x, k))
  (at level 100, m at next level, right associativity, only parsing).

(** [try: body  except <catches> as e: handler e]; what [body] did to the
    world before raising stays done. *)
Definition try_except {A} (body : M A) (catches : exn → bool)
    (handler : exn → M A) : M A :=
  λ w, match body w with
       | (Ok a, w') => (Ok a, w')
       | (Err e, w') => if catches e then handler e w' else (Err e, w')
       end.

(** [for x in l: s = body x s] *)
Fixpoint for_each {A S} (l : list A) (s : S) (body : A → S → M S) : M S :=
  match l with
  | [] => ret s
  | x :: l' => s' <- body x s;; for_each l' s' body
  end.

Definition get_fs : M (gmap path node) := λ w, (Ok (fs w), w).

Definition put_fs (m : gmap path node) : M unit :=
  λ w, (Ok tt, World m (clock w) (trace w)).

Definition emit (ev : event) : M unit :=
  λ w, (Ok tt, World (fs w) (clock w) (trace w ++ [ev])).

Definition log (lvl : level) (msg : string) : M unit := emit (EvLog lvl msg).

(** [datetime.now()] *)
Definition datetime_now : M Z := λ w, (Ok (clock w), w).

(** ** Strings *)

(** [s.count(c)] for a one-character [c]. *)
Fixpoint str_count (c : ascii) (s : string) : nat :=
  match s with
  | EmptyString => 0%nat
  | String a s' => ((if decide (a = c) then 1 else 0) + str_count c s')%nat
  end.

(** [sub in s] *)
Fixpoint str_contains (sub s : string) : bool :=
  String.prefix sub s ||
  match s with
  | EmptyString => false
  | String _ s' => str_contains sub s'
  end.

(** [fnmatch(name, "*.jsonl*")]: anything, then [.jsonl], then anything. *)
Definition fnmatch_jsonl (name : string) : bool := str_contains ".jsonl" name.

(** Digits in groups of three from the right, as the [:,] format does. *)
Fixpoint group3 (rev_digits : list ascii) (k : nat) : list ascii :=
  match rev_digits with
  | [] => []
  | d :: ds =>
      match k with
      | O => "," %char :: d :: group3 ds 2
      | S k' => d :: group3 ds k'
      end
  end.

(** [f"{n:,}"] *)
Definition commas (n : Z) : string :=
  let digits := String.list_ascii_of_string (pretty (Z.abs n)) in
  let grouped := String.string_of_list_ascii (reverse (group3 (reverse digits) 3)) in
  if n <? 0 then "-" +:+ grouped else grouped.

(** ** File-system and network primitives *)

(** [path.exists()].  Failures of the underlying [stat] other than absence
    (a directory on the way that may not be searched) are left out: the
    file system here has no permissions. *)
Definition path_exists (p : path) : M bool :=
  m <- get_fs;; ret (bool_decide (is_Some (m !! p))).

(** [path.is_file()], on a given file system. *)
Definition is_file (m : gmap path node) (p : path) : bool :=
  match m !! p with Some (File _) => true | _ => false end.

(** [path.stat().st_size].  The size of a directory entry is not modelled
    (it reads as 0); the job only asks for the size of regular files. *)
Definition stat_st_size (p : path) : M Z :=
  m <- get_fs;;
  match m !! p with
  | Some (File fd) => ret (st_size fd)
  | Some Dir => ret 0
  | None => raise (FileNotFoundError p)
  end.

(** [path.read_text(encoding="utf-8")] *)
Definition read_text (p : path) : M string :=
  m <- get_fs;;
  match m !! p with
  | Some (File fd) =>
      match text fd with
      | Some s => ret s
      | None => raise UnicodeDecodeError
      end
  | Some Dir => raise (IsADirectoryError p)
  | None => raise (FileNotFoundError p)
  end.

(** [d.glob("*.jsonl*")]: the entries directly inside [d] whose name matches,
    in the order the map lists them. *)
Definition glob_match (d p : path) : bool :=
  bool_decide (p = path_join d (path_name p)) && fnmatch_jsonl (path_name p).

Definition glob_jsonl (m : gmap path node) (d : path) : list path :=
  filter (λ p, glob_match d p = true) (map_to_list m).*1.

(** [path.mkdir(exist_ok=True)]: an existing directory is left alone, an
    existing regular file raises [FileExistsError]. *)
Definition mkdir_exist_ok (p : path) : M unit :=
  m <- get_fs;;
  match m !! p with
  | Some Dir => ret tt
  | Some (File _) => raise (FileExistsError p)
  | None => _ <- put_fs (<[p := Dir]> m);; emit (EvMkdir p)
  end.

(** [os.rename(src, dst)]: the entry at [src], and everything below it when
    it is a directory, moves to [dst]; a file at [dst] is replaced. *)
Definition rebase (src dst p : path) : path :=
  if decide (src `prefix_of` p) then dst ++ drop (length src) p else p.

Definition os_rename (src dst : path) : M unit :=
  m <- get_fs;;
  match m !! src with
  | None => raise (FileNotFoundError src)
  | Some (File fd) =>
      _ <- put_fs (<[dst := File fd]> (delete src m));; emit (EvMove src dst)
  | Some Dir =>
      _ <- put_fs (list_to_map (prod_map (rebase src dst) id <$> map_to_list m));;
      emit (EvMove src dst)
  end.

(** [shutil.move(src, dst)]: when [dst] is an existing directory the source
    goes inside it under its own name, unless that name is taken. *)
Definition shutil_move (src dst : path) : M unit :=
  m <- get_fs;;
  match m !! dst with
  | Some Dir =>
      let real_dst := path_join dst (path_name src) in
      if bool_decide (is_Some (m !! real_dst))
      then raise (ShutilError real_dst)
      else os_rename src real_dst
  | _ => os_rename src dst
  end.

(** [requests.post(url, params={"code": ...}, json=payload, timeout=30)]:
    the request and its outcome are recorded; a transport failure surfaces
    as [requests.RequestException].  The time the request takes is left
    out: the clock reads the same before and after. *)
Definition requests_post `{Environment} (rq : request) : M (Z * string) :=
  λ w, let o := post_outcome (trace w) rq in
       let w' := World (fs w) (clock w) (trace w ++ [EvPost rq o]) in
       match o with
       | Response sc body => (Ok (sc, body), w')
       | TransportFailure msg => (Err (RequestException msg), w')
       end.

(** [with open(p) as f: json.load(f)] *)
Definition open_json_load `{Environment} (p : path) : M json_value :=
  s <- read_text p;;
  match json_loads s with
  | inl v => ret v
  | inr msg => raise (JSONDecodeError msg)
  end.

(** ** [jobs/base.py] and [config.py]: the records *)

Module JobResult.
Record t := Make {
  job_id : string;
  success : bool;
  message : string;
  items_processed : Z;
  errors : list string;
}.
End JobResult.

Module AgentConfig.
Record t := Make {
  workspace : string;
  sessions_dir : list string;
}.
End AgentConfig.

(** [config] is the per-job option mapping; the only option the worker reads
    is a sequence of agent identifiers.  [last_run] is a [datetime], in
    microseconds like the clock. *)
Module Job.
Record t := Make {
  id : string;
  type : string;
  enabled : bool;
  interval_minutes : Z;
  config : gmap string (list string);
  agents : gmap string AgentConfig.t;
  last_run : option Z;
}.

(** [Job.is_due]: [timedelta.total_seconds() >= interval_minutes * 60],
    with both sides in microseconds. *)
Definition is_due (self : t) : M bool :=
  match last_run self with
  | None => ret true
  | Some last =>
      now <- datetime_now;;
      let elapsed := now - last in
      ret (bool_decide (interval_minutes self * 60 * 1000000 ≤ elapsed))
  end.

(** [Job.mark_run]: the updated job is returned; the call is recorded in
    the trace. *)
Definition mark_run (self : t) : M t :=
  _ <- emit (EvMarkRun (id self));;
  now <- datetime_now;;
  ret (Make (id self) (type self) (enabled self) (interval_minutes self)
            (config self) (agents self) (Some now)).
End Job.

(** ** [jobs/session_upload.py]: [SessionUploadJob] *)

Module SessionUploadJob.
Section methods.
Context `{Environment}.

(** [_extract_session_id]: the first 36 characters, when there are that
    many and exactly four of them are hyphens.  A name is a string of
    one-byte characters, as session file names are. *)
Definition _extract_session_id (filename : string) : option string :=
  if bool_decide (36 ≤ String.length filename)%nat then
    let session_id := String.substring 0 36 filename in
    if bool_decide (String.length session_id = 36%nat)
       && bool_decide (str_count "-" session_id = 4%nat)
    then Some session_id
    else None
  else None.

Definition MAX_TRANSCRIPT_BYTES : Z := 10485760.

Definition _get_active_sessions (sessions_dir : path) : M (gset string) :=
  let sessions_file := path_join sessions_dir "sessions.json" in
  present <- path_exists sessions_file;;
  if negb present then ret ∅
  else
    try_except
      (data <- open_json_load sessions_file;;
       match data with
       | JObject keys => ret (list_to_set keys)
       | JNotObject => ret ∅
       end)
      (λ _, true)
      (λ e,
         _ <- log WARNING ("Error reading sessions.json: " +:+ str_exn e);;
         ret ∅).

(** The test of the loop of [_find_completed_sessions] on one globbed
    entry: [file.is_file()], then
    [session_id and session_id not in active_sessions]. *)
Definition is_completed (m : gmap path node) (active_sessions : gset string)
    (file : path) : bool :=
  is_file m file &&
  match _extract_session_id (path_name file) with
  | Some session_id => bool_decide (session_id ∉ active_sessions)
  | None => false
  end.

Definition _find_completed_sessions (sessions_dir : path)
    (active_sessions : gset string) : M (list path) :=
  m <- get_fs;;
  ret (filter (λ file, is_completed m active_sessions file = true)
              (glob_jsonl m sessions_dir)).

Definition _upload_session (agent_id session_id : string)
    (session_file : path) (endpoint api_key : string) : M bool :=
  file_size <- stat_st_size session_file;;
  if bool_decide (MAX_TRANSCRIPT_BYTES < file_size) then
    _ <- log WARNING
           ("Session " +:+ session_id +:+ " too large ("
            +:+ commas file_size +:+ " bytes), max is "
            +:+ commas MAX_TRANSCRIPT_BYTES +:+ " bytes — skipping");;
    ret false
  else
    transcript <- read_text session_file;;
    let url := endpoint +:+ "/sessions" in
    let rq := Request url api_key agent_id session_id transcript in
    try_except
      (response <- requests_post rq;;
       let status_code := response.1 in
       if bool_decide (status_code = 200) then ret true
       else if bool_decide (status_code = 409) then
         _ <- log WARNING ("Session already exists: " +:+ session_id);;
         ret true
       else if bool_decide (status_code = 413) then
         _ <- log ERROR ("Session too large: " +:+ session_id);;
         ret false
       else
         _ <- log ERROR
                ("Upload failed (" +:+ pretty status_code +:+ "): "
                 +:+ response.2);;
         ret false)
      is_RequestException
      (λ e,
         _ <- log ERROR ("Request failed: " +:+ str_exn e);;
         ret false).

Definition _archive_session (session_file sessions_dir : path) : M unit :=
  let archive_dir := path_join sessions_dir "archive" in
  _ <- mkdir_exist_ok archive_dir;;
  let dest := path_join archive_dir (path_name session_file) in
  shutil_move session_file dest.

(** The body of the upload loop of [_process_agent], on the counters
    [uploaded] and [errors]. *)
Definition upload_step (agent_id : string) (sessions_dir : path)
    (endpoint api_key : string) (session_file : path)
    (acc : Z * list string) : M (Z * list string) :=
  let uploaded := acc.1 in
  let errors := acc.2 in
  match _extract_session_id (path_name session_file) with
  | None =>
      ret (uploaded,
           errors ++ ["Invalid session filename: " +:+ path_name session_file])
  | Some session_id =>
      try_except
        (success <- _upload_session agent_id session_id session_file
                      endpoint api_key;;
         if success : bool then
           _ <- _archive_session session_file sessions_dir;;
           _ <- log INFO ("Uploaded and archived: " +:+ session_id);;
           ret (uploaded + 1, errors)
         else
           ret (uploaded, errors ++ ["Upload failed: " +:+ session_id]))
        (λ _, true)
        (λ e,
           _ <- log ERROR ("Error uploading session " +:+ session_id);;
           ret (uploaded,
                errors ++ ["Error uploading " +:+ session_id +:+ ": "
                           +:+ str_exn e]))
  end.

Definition _process_agent (agent_id : string) (sessions_dir : path)
    (endpoint api_key : string) : M (Z * list string) :=
  active_sessions <- _get_active_sessions sessions_dir;;
  completed <- _find_completed_sessions sessions_dir active_sessions;;
  match completed with
  | [] =>
      _ <- log DEBUG ("No completed sessions for " +:+ agent_id);;
      ret (0, [])
  | _ =>
      _ <- log INFO
             ("Found " +:+ pretty (length completed)
              +:+ " completed sessions for " +:+ agent_id);;
      for_each completed (0, [])
               (upload_step agent_id sessions_dir endpoint api_key)
  end.

(** The body of the loop of [run] over the agent identifiers, on the
    counters [total_uploaded] and [errors]. *)
Definition agent_step (self : Job.t) (endpoint api_key : string)
    (agent_id : string) (acc : Z * list string) : M (Z * list string) :=
  let total_uploaded := acc.1 in
  let errors := acc.2 in
  match Job.agents self !! agent_id with
  | None =>
      ret (total_uploaded,
           errors ++ ["Agent not found in config: " +:+ agent_id])
  | Some agent_config =>
      let sessions_dir := AgentConfig.sessions_dir agent_config in
      present <- path_exists sessions_dir;;
      if negb present then
        _ <- log WARNING
               ("Sessions directory not found: " +:+ str_path sessions_dir);;
        ret (total_uploaded, errors)
      else
        r <- _process_agent agent_id sessions_dir endpoint api_key;;
        ret (total_uploaded + r.1, errors ++ r.2)
  end.

Definition run (self : Job.t) (endpoint api_key : string)
    : M JobResult.t :=
  let agent_ids := default [] (Job.config self !! "agents") in
  match agent_ids with
  | [] => ret (JobResult.Make (Job.id self) true "No agents configured" 0 [])
  | _ =>
      r <- for_each agent_ids (0, []) (agent_step self endpoint api_key);;
      let total_uploaded := r.1 in
      let errors := r.2 in
      let success :=
        bool_decide (length errors = 0%nat)
        || bool_decide (0 < total_uploaded) in
      let message :=
        match errors with
        | [] => "Uploaded " +:+ pretty total_uploaded +:+ " sessions"
        | _ => "Uploaded " +:+ pretty total_uploaded +:+ " sessions, "
               +:+ pretty (length errors) +:+ " errors"
        end in
      ret (JobResult.Make (Job.id self) success message total_uploaded errors)
  end.
End methods.
End SessionUploadJob.

(** ** [worker/scheduler.py] *)

(** A job class, as the scheduler sees it: its [run] method.  Only
    [mark_run] writes a job's fields. *)
Definition run_method : Type := Job.t → string → string → M JobResult.t.

Definition run_job (run : run_method) (job : Job.t)
    (endpoint api_key : string) : M (JobResult.t * Job.t) :=
  try_except
    (_ <- log INFO ("Running job: " +:+ Job.id job);;
     result <- run job endpoint api_key;;
     job' <- Job.mark_run job;;
     _ <- log INFO ("Job " +:+ Job.id job +:+ ": " +:+ JobResult.message result);;
     _ <- for_each (JobResult.errors result) tt
            (λ error _, log WARNING ("Job " +:+ Job.id job +:+ ": " +:+ error));;
     ret (result, job'))
    (λ _, true)
    (λ e,
       _ <- log ERROR ("Job " +:+ Job.id job +:+ " failed with exception");;
       job' <- Job.mark_run job;;
       ret (JobResult.Make (Job.id job) false ("Exception: " +:+ str_exn e) 0
                           [str_exn e],
            job')).

(** *** [config.py]: the job specifications and the configuration *)

Module JobConfig.
Record t := Make {
  id : string;
  type : string;
  enabled : bool;
  interval_minutes : Z;
  config : gmap string (list string);
}.
End JobConfig.

Module Config.
Record t := Make {
  endpoint : string;
  api_key : string;
  agents : gmap string AgentConfig.t;
  jobs : list JobConfig.t;
}.
End Config.

(** *** [create_job], [run_scheduler], [run_single_job] *)

(** A job instance: the [run] of its class and its fields. *)
Definition job_object : Type := run_method * Job.t.

(** The registry [job_types] of [create_job]. *)
Definition job_types `{Environment} (type : string) : option run_method :=
  if bool_decide (type = "session_upload") then Some SessionUploadJob.run
  else None.

Definition create_job `{Environment} (job_config : JobConfig.t)
    (agents : gmap string AgentConfig.t) : M (option job_object) :=
  match job_types (JobConfig.type job_config) with
  | None =>
      _ <- log ERROR ("Unknown job type: " +:+ JobConfig.type job_config);;
      ret None
  | Some job_class =>
      ret (Some (job_class,
                 Job.Make (JobConfig.id job_config) (JobConfig.type job_config)
                          (JobConfig.enabled job_config)
                          (JobConfig.interval_minutes job_config)
                          (JobConfig.config job_config) agents None))
  end.

(** [str(b)] for a bool. *)
Definition str_bool (b : bool) : string := if b then "True" else "False".

(** [time.sleep(seconds)]: the clock moves on by the time slept. *)
Definition time_sleep (seconds : Z) : M unit :=
  λ w, (Ok tt, World (fs w) (clock w + seconds * 1000000) (trace w)).

(** The first loop of [run_scheduler]: the job instances, in the order of
    the configuration, the unknown types left out. *)
Definition load_jobs `{Environment} (config : Config.t) : M (list job_object) :=
  for_each (Config.jobs config) []
    (λ job_config jobs,
       job <- create_job job_config (Config.agents config);;
       match job with
       | Some job =>
           _ <- log INFO
                  ("Loaded job: " +:+ Job.id job.2 +:+ " (type="
                   +:+ Job.type job.2 +:+ ", enabled="
                   +:+ str_bool (Job.enabled job.2) +:+ ")");;
           ret (jobs ++ [job])
       | None => ret jobs
       end).

(** One pass of the main loop, the [for job in jobs] inside [while True].
    The jobs are objects the loop updates in place; here the pass returns
    them as it leaves them. *)
Definition scheduler_pass (endpoint api_key : string)
    (jobs : list job_object) : M (list job_object) :=
  for_each jobs []
    (λ job seen,
       if negb (Job.enabled job.2) then ret (seen ++ [job])
       else
         due <- Job.is_due job.2;;
         if negb due then ret (seen ++ [job])
         else
           r <- run_job job.1 job.2 endpoint api_key;;
           ret (seen ++ [(job.1, r.2)])).

(** [while True: <pass>; time.sleep(60)], cut after [passes] passes: the
    loop itself never ends, the process is stopped from outside. *)
Fixpoint scheduler_loop (passes : nat) (endpoint api_key : string)
    (jobs : list job_object) : M unit :=
  match passes with
  | O => ret tt
  | S passes' =>
      jobs' <- scheduler_pass endpoint api_key jobs;;
      _ <- time_sleep 60;;
      scheduler_loop passes' endpoint api_key jobs'
  end.

Definition run_scheduler `{Environment} (passes : nat) (config : Config.t)
    : M unit :=
  _ <- log INFO "Starting Nexus Worker";;
  jobs <- load_jobs config;;
  match jobs with
  | [] => log ERROR "No jobs configured"
  | _ =>
      _ <- log INFO ("Loaded " +:+ pretty (length jobs) +:+ " jobs");;
      scheduler_loop passes (Config.endpoint config) (Config.api_key config)
                     jobs
  end.

Definition run_single_job `{Environment} (config : Config.t)
    (job_id : string) : M (option JobResult.t) :=
  _ <- log INFO ("Running single job: " +:+ job_id);;
  match List.find (λ jc, bool_decide (JobConfig.id jc = job_id))
                  (Config.jobs config) with
  | None =>
      _ <- log ERROR ("Job not found: " +:+ job_id);;
      ret None
  | Some job_config =>
      job <- create_job job_config (Config.agents config);;
      match job with
      | None => ret None
      | Some job =>
          r <- run_job job.1 job.2 (Config.endpoint config)
                       (Config.api_key config);;
          ret (Some r.1)
      end
  end.


(** ** Vocabulary of the statements *)

(** The status-code policy of [_upload_session]: 200 and 409 are success. *)
Definition accepted (o : outcome) : bool :=
  match o with
  | Response sc _ => bool_decide (sc = 200) || bool_decide (sc = 409)
  | TransportFailure _ => false
  end.

(** The request [_upload_session] builds. *)
Definition upload_request (agent_id session_id transcript endpoint api_key : string)
    : request :=
  Request (endpoint +:+ "/sessions") api_key agent_id session_id transcript.

Definition is_move (ev : event) : bool :=
  match ev with EvMove _ _ => true | _ => false end.

Definition is_post (ev : event) : bool :=
  match ev with EvPost _ _ => true | _ => false end.

Definition is_accepted_post (ev : event) : bool :=
  match ev with EvPost _ o => accepted o | _ => false end.

(** How many files a stretch of the trace moved, how many requests it made,
    and how many of them the endpoint accepted. *)
Definition count_moves (evs : list event) : nat :=
  length (filter (λ ev, is_move ev = true) evs).

Definition count_posts (evs : list event) : nat :=
  length (filter (λ ev, is_post ev = true) evs).

Definition count_accepted (evs : list event) : nat :=
  length (filter (λ ev, is_accepted_post ev = true) evs).

(** A move of an entry [n] of some directory [d] to [d/archive/n] (or inside
    it, when that is a directory). *)
Definition archive_move (ev : event) : Prop :=
  match ev with
  | EvMove src dst =>
      ∃ d n, src = path_join d n ∧
             (dst = path_join (path_join d "archive") n ∨
              dst = path_join (path_join (path_join d "archive") n) n)
  | _ => True
  end.


(** What a stretch [evs] of the trace and the counters [(uploaded, errors)]
    before and after it have to do with each other: the count went up by the
    number of files moved, every move went into an [archive/] directory, no
    more files were moved than requests accepted, and the error list only
    grew. *)
Definition tallied (acc acc' : Z * list string) (evs : list event) : Prop :=
  acc'.1 = acc.1 + Z.of_nat (count_moves evs) ∧
  (count_moves evs ≤ count_accepted evs)%nat ∧
  (count_accepted evs ≤ count_posts evs)%nat ∧
  (∃ new, acc'.2 = acc.2 ++ new) ∧
  Forall archive_move evs.


(** The log record [_upload_session] writes after the outcome of its
    request. *)
Definition response_log (session_id : string) (o : outcome) : list event :=
  match o with
  | Response sc body =>
      if bool_decide (sc = 200) then []
      else if bool_decide (sc = 409) then
        [EvLog WARNING ("Session already exists: " +:+ session_id)]
      else if bool_decide (sc = 413) then
        [EvLog ERROR ("Session too large: " +:+ session_id)]
      else
        [EvLog ERROR ("Upload failed (" +:+ pretty sc +:+ "): " +:+ body)]
  | TransportFailure msg => [EvLog ERROR ("Request failed: " +:+ msg)]
  end.

(** The places [_archive_session] works on for the entry [n] of [d]. *)
Definition archive_dir (d : path) : path := path_join d "archive".

Definition archive_dest (d : path) (n : string) : path :=
  path_join (archive_dir d) n.

Definition archive_nested (d : path) (n : string) : path :=
  path_join (archive_dest d n) n.


(** A candidate of the upload loop over the directory [d], in a world: a
    regular file directly inside [d] whose name carries a valid session
    id. *)
Definition candidate (d : path) (w : world) (f : path) : Prop :=
  ∃ n fd sid,
    f = path_join d n ∧ fs w !! f = Some (File fd) ∧
    SessionUploadJob._extract_session_id n = Some sid.


(** The world in which the upload loop of [_process_agent] starts: the one
    [_get_active_sessions] left, with the record of how many completed
    sessions were found. *)
Definition loop_start (agent_id : string) (completed : list path)
    (wa : world) : world :=
  World (fs wa) (clock wa)
        (trace wa ++
         [EvLog INFO ("Found " +:+ pretty (length completed)
                      +:+ " completed sessions for " +:+ agent_id)]).


(** *** The scheduler and the events of a run *)

(** An event a run of the session upload job may leave in the trace, for
    the given endpoint, key and agents: any log record, directory creation
    or move; a request only to [endpoint/sessions], with that key, for one
    of the agents and a well-formed session id; never a [mark_run]. *)
Definition run_event (endpoint api_key : string) (agent_ids : list string)
    (ev : event) : Prop :=
  match ev with
  | EvPost rq _ =>
      url rq = endpoint +:+ "/sessions" ∧ code rq = api_key ∧
      agentId rq ∈ agent_ids ∧
      String.length (sessionId rq) = 36%nat ∧
      str_count "-" (sessionId rq) = 4%nat
  | EvMarkRun _ => False
  | _ => True
  end.

(** The job after a [mark_run] at time [t]. *)
Definition marked (job : Job.t) (t : Z) : Job.t :=
  Job.Make (Job.id job) (Job.type job) (Job.enabled job)
           (Job.interval_minutes job) (Job.config job) (Job.agents job)
           (Some t).

(** The job [create_job] builds from a specification. *)
Definition fresh_job (job_config : JobConfig.t)
    (agents : gmap string AgentConfig.t) : Job.t :=
  Job.Make (JobConfig.id job_config) (JobConfig.type job_config)
           (JobConfig.enabled job_config)
           (JobConfig.interval_minutes job_config)
           (JobConfig.config job_config) agents None.

(** Whether a job is due when the clock reads [now]. *)
Definition due_at (now : Z) (job : Job.t) : bool :=
  match Job.last_run job with
  | None => true
  | Some last => bool_decide (Job.interval_minutes job * 60 * 1000000 ≤ now - last)
  end.

(** The ids of the [mark_run] calls of a stretch of the trace, in order. *)
Definition mark_runs (evs : list event) : list string :=
  omap (λ ev, match ev with EvMarkRun job_id => Some job_id | _ => None end) evs.

(** Two job instances that differ at most in [last_run]. *)
Definition same_job (j j' : job_object) : Prop :=
  j'.1 = j.1 ∧ Job.id j'.2 = Job.id j.2 ∧ Job.type j'.2 = Job.type j.2 ∧
  Job.enabled j'.2 = Job.enabled j.2 ∧
  Job.interval_minutes j'.2 = Job.interval_minutes j.2 ∧
  Job.config j'.2 = Job.config j.2 ∧ Job.agents j'.2 = Job.agents j.2.





(** The record [load_jobs] logs for one job specification. *)
Definition load_record (job_config : JobConfig.t) : event :=
  if bool_decide (JobConfig.type job_config = "session_upload") then
    EvLog INFO
      ("Loaded job: " +:+ JobConfig.id job_config +:+ " (type="
       +:+ JobConfig.type job_config +:+ ", enabled="
       +:+ str_bool (JobConfig.enabled job_config) +:+ ")")
  else EvLog ERROR ("Unknown job type: " +:+ JobConfig.type job_config).

(** The warning [run] logs for an agent whose directory is missing. *)
Definition missing_dir_warning (self : Job.t) (agent_id : string) : event :=
  EvLog WARNING
    ("Sessions directory not found: "
     +:+ match Job.agents self !! agent_id with
         | Some cfg => str_path (AgentConfig.sessions_dir cfg)
         | None => ""
         end).


(** ** A sample deployment

    The end-to-end scenario of the specification: agent [a1], whose sessions
    directory holds an empty [sessions.json] and one 5 KB transcript, and an
    endpoint that answers every request with the same status. *)

Definition sample_dir : path := ["home"; "a1"; "sessions"].

Definition sample_session : string :=
  "22222222-2222-2222-2222-222222222222.jsonl".

Definition sample_transcript : file_data := FileData 5120 (Some "hello").

Definition sample_fs (transcript : file_data) : gmap path node :=
  list_to_map
    [(sample_dir, Dir);
     (path_join sample_dir "sessions.json", File (FileData 2 (Some "{}")));
     (path_join sample_dir sample_session, File transcript)].

Definition sample_world : world := World (sample_fs sample_transcript) 0 [].

Definition sample_endpoint (status : Z) : Environment :=
  {| post_outcome := λ _ _, Response status "server error";
     json_loads := λ s, if bool_decide (s = "{}") then inl (JObject [])
                        else inr "Expecting value" |}.

Definition sample_job (agent_ids : gmap string (list string)) : Job.t :=
  Job.Make "upload" "session_upload" true 5 agent_ids
           {[ "a1" := AgentConfig.Make "/home/a1" sample_dir ]} None.

(** A sessions directory with two badly named files: one too short, one
    whose first 36 characters hold three hyphens. *)
Definition malformed_fs : gmap path node :=
  list_to_map
    [(sample_dir, Dir);
     (path_join sample_dir "sessions.json", File (FileData 2 (Some "{}")));
     (path_join sample_dir "short.jsonl", File (FileData 5 (Some "hello")));
     (path_join sample_dir "33333333-3333-3333-3333333333333333.jsonl",
      File (FileData 5 (Some "hello")))].

(** The sample sessions directory, with a regular file where the archive
    directory would go. *)
Definition blocked_fs : gmap path node :=
  <[archive_dir sample_dir := File (FileData 0 (Some ""))]>
    (sample_fs sample_transcript).

(** The sample job, switched off. *)
Definition disabled_job : Job.t :=
  Job.Make "upload" "session_upload" false 5 {[ "agents" := ["a1"] ]}
           {[ "a1" := AgentConfig.Make "/home/a1" sample_dir ]} None.

(** A configuration with one job specification, for agent [a1]. *)
Definition sample_config (type : string) (enabled : bool) : Config.t :=
  Config.Make "https://nexus" "key"
              {[ "a1" := AgentConfig.Make "/home/a1" sample_dir ]}
              [JobConfig.Make "upload" type enabled 5
                              {[ "agents" := ["a1"] ]}].

(** The sample sessions directory, with an earlier copy of the transcript
    already in the archive. *)
Definition rearchive_fs : gmap path node :=
  <[archive_dest sample_dir sample_session := File (FileData 3 (Some "old"))]>
    (<[archive_dir sample_dir := Dir]> (sample_fs sample_transcript)).


(** * Properties *)

Import SessionUploadJob.

(** Unfolds the monad's operations. *)
Ltac munfold :=
  unfold bind, ret, raise, try_except, log, emit, get_fs, put_fs,
    datetime_now in *.

(** ** [Job.is_due] and [Job.mark_run] *)

(** C5: [is_due] answers true exactly when [last_run] is unset or at least
    [interval_minutes * 60] seconds (here in microseconds) lie between
    [last_run] and the clock, and it leaves the world as it was; [mark_run]
    sets [last_run] to the clock and changes no other field.  So a job that
    never ran is due, and a job marked at time [clock w] is, at any later
    clock reading [clock w2], due exactly when [interval_minutes] minutes
    have passed since. *)
Theorem is_due_iff_interval_elapsed (self : Job.t) (w : world) :
  (∃ b, Job.is_due self w = (Ok b, w) ∧
        (b = true ↔
         Job.last_run self = None ∨
         ∃ last, Job.last_run self = Some last ∧
                 Job.interval_minutes self * 60 * 1000000 ≤ clock w - last)) ∧
  (Job.last_run self = None → Job.is_due self w = (Ok true, w)) ∧
  (∃ self', Job.mark_run self w
            = (Ok self',
               World (fs w) (clock w) (trace w ++ [EvMarkRun (Job.id self)])) ∧
            Job.last_run self' = Some (clock w) ∧
            Job.interval_minutes self' = Job.interval_minutes self ∧
            Job.id self' = Job.id self ∧
            Job.enabled self' = Job.enabled self ∧
            Job.config self' = Job.config self ∧
            Job.agents self' = Job.agents self ∧
            ∀ w2,
              (clock w2 - clock w < Job.interval_minutes self * 60 * 1000000 →
               Job.is_due self' w2 = (Ok false, w2)) ∧
              (Job.interval_minutes self * 60 * 1000000 ≤ clock w2 - clock w →
               Job.is_due self' w2 = (Ok true, w2))).
Proof.
  split; [|split].
  - unfold Job.is_due. destruct (Job.last_run self) as [last|] eqn:Hlast.
    + munfold. eexists. split; [reflexivity|].
      rewrite bool_decide_eq_true. split.
      * intros Hle. right. exists last. done.
      * intros [Hnone | (last' & Heq & Hle)]; [done|]. by simplify_eq.
    + exists true. split; [done|]. split; [by left | done].
  - intros Hnone. unfold Job.is_due. by rewrite Hnone.
  - eexists. split; [reflexivity|]. simpl. repeat split; try done.
    + intros Hlt. unfold Job.is_due. simpl. munfold.
      by rewrite bool_decide_eq_false_2 by lia.
    + intros Hle. unfold Job.is_due. simpl. munfold.
      by rewrite bool_decide_eq_true_2 by lia.
Qed.

(** ** [run_job] *)

(** A loop that only logs appends one record per element. *)
Lemma for_each_log {A} (l : list A) (record : A → event) (w : world) :
  for_each l tt (λ x _, emit (record x)) w
  = (Ok tt, World (fs w) (clock w) (trace w ++ (record <$> l))).
Proof.
  revert w. induction l as [|x l IH]; intros w; simpl.
  - munfold. rewrite app_nil_r. by destruct w.
  - munfold. rewrite IH. simpl. by rewrite <- app_assoc.
Qed.

(** C6: [run_job] first logs, then calls [run].  When [run] raises [e], the
    exception is caught: [run_job] returns (it never raises) the failed
    result with [success = false], the message ["Exception: " + str(e)], no
    item processed and [str(e)] as the only error.  When [run] returns a
    result, [run_job] returns that result.  Either way the events after
    [run] hold exactly one [mark_run] call, the rest being log records, and
    the job leaves with [last_run] set to the clock and its other fields as
    they were. *)
Theorem run_job_catches_and_marks_once (run : run_method) (job : Job.t)
    (endpoint api_key : string) (w : world) :
  let w0 := World (fs w) (clock w)
                  (trace w ++ [EvLog INFO ("Running job: " +:+ Job.id job)]) in
  let marked (t : Z) :=
    Job.Make (Job.id job) (Job.type job) (Job.enabled job)
             (Job.interval_minutes job) (Job.config job) (Job.agents job)
             (Some t) in
  match run job endpoint api_key w0 with
  | (Err e, w1) =>
      run_job run job endpoint api_key w
      = (Ok (JobResult.Make (Job.id job) false ("Exception: " +:+ str_exn e) 0
                            [str_exn e],
             marked (clock w1)),
         World (fs w1) (clock w1)
               (trace w1 ++
                [EvLog ERROR ("Job " +:+ Job.id job +:+ " failed with exception");
                 EvMarkRun (Job.id job)]))
  | (Ok result, w1) =>
      run_job run job endpoint api_key w
      = (Ok (result, marked (clock w1)),
         World (fs w1) (clock w1)
               (trace w1 ++
                EvMarkRun (Job.id job)
                :: EvLog INFO ("Job " +:+ Job.id job +:+ ": "
                               +:+ JobResult.message result)
                :: ((λ error, EvLog WARNING ("Job " +:+ Job.id job +:+ ": "
                                             +:+ error))
                    <$> JobResult.errors result)))
  end.
Proof.
  intros w0 marked.
  destruct (run job endpoint api_key w0) as [[result|e] w1] eqn:Hrun.
  - unfold run_job, Job.mark_run. munfold. fold w0. rewrite Hrun. simpl.
    match goal with
    | |- context [for_each ?l tt _ ?w'] =>
        pose proof (for_each_log l
          (λ error, EvLog WARNING ("Job " +:+ Job.id job +:+ ": " +:+ error))
          w') as Hlog
    end.
    unfold emit in Hlog. rewrite Hlog. simpl.
    do 2 f_equal. rewrite <- !app_assoc. done.
  - unfold run_job, Job.mark_run. munfold. fold w0. rewrite Hrun. simpl.
    do 2 f_equal. rewrite <- !app_assoc. done.
Qed.

(** ** Counting events *)

Lemma count_moves_app (l1 l2 : list event) :
  count_moves (l1 ++ l2) = (count_moves l1 + count_moves l2)%nat.
Proof. unfold count_moves. by rewrite filter_app, length_app. Qed.

Lemma count_posts_app (l1 l2 : list event) :
  count_posts (l1 ++ l2) = (count_posts l1 + count_posts l2)%nat.
Proof. unfold count_posts. by rewrite filter_app, length_app. Qed.

Lemma count_accepted_app (l1 l2 : list event) :
  count_accepted (l1 ++ l2) = (count_accepted l1 + count_accepted l2)%nat.
Proof. unfold count_accepted. by rewrite filter_app, length_app. Qed.

Lemma count_moves_log (lvl : level) (msg : string) :
  count_moves [EvLog lvl msg] = 0%nat.
Proof. done. Qed.

Lemma count_posts_log (lvl : level) (msg : string) :
  count_posts [EvLog lvl msg] = 0%nat.
Proof. done. Qed.

Lemma count_accepted_log (lvl : level) (msg : string) :
  count_accepted [EvLog lvl msg] = 0%nat.
Proof. done. Qed.

Lemma count_moves_0_no_move (evs : list event) (P : event → Prop) :
  count_moves evs = 0%nat → Forall (λ ev, is_move ev = true → P ev) evs.
Proof.
  unfold count_moves. intros Hnil%length_zero_iff_nil.
  apply Forall_forall. intros ev Hin Hmv.
  assert (ev ∈ filter (λ ev, is_move ev = true) evs) as Hf
    by (by apply list_elem_of_filter).
  rewrite Hnil in Hf. by apply elem_of_nil in Hf.
Qed.

(** Splits the counts of a trace stretch along its parts. *)
Ltac counts :=
  rewrite ?count_moves_app, ?count_accepted_app, ?count_posts_app,
    ?count_moves_log, ?count_posts_log, ?count_accepted_log.

(** Turns the boolean tests met along a path of the code into facts. *)
Ltac bool_facts :=
  repeat match goal with
         | Hb : bool_decide _ = true |- _ => apply bool_decide_eq_true in Hb
         | Hb : bool_decide _ = false |- _ => apply bool_decide_eq_false in Hb
         end.

(** ** The session upload job *)

Section session_upload.
Context `{Environment}.

(** [_upload_session] touches no file: it returns or raises after at most
    one request and no move, and it answers true only after an accepted
    request. *)
Lemma upload_session_events (agent_id sid : string) (f : path)
    (endpoint api_key : string) (w : world) :
  ∃ r evs,
    _upload_session agent_id sid f endpoint api_key w
    = (r, World (fs w) (clock w) (trace w ++ evs)) ∧
    count_moves evs = 0%nat ∧
    (count_posts evs ≤ 1)%nat ∧
    (count_accepted evs ≤ count_posts evs)%nat ∧
    (r = Ok true → count_accepted evs = 1%nat).
Proof.
  destruct w as [m c tr].
  unfold _upload_session, stat_st_size, read_text, requests_post.
  munfold. simpl.
  repeat (case_match; simplify_eq/=); bool_facts; simplify_eq/=.
  all: rewrite <- ?app_assoc; simpl.
  all: first [ eexists _, []; split; [by rewrite app_nil_r|]
             | eexists _, _; split; [reflexivity|] ].
  all: try (by vm_compute; split_and!; try lia).
  unfold count_moves, count_posts, count_accepted, filter. simpl.
  rewrite !bool_decide_eq_false_2 by done. simpl. split_and!; try done; lia.
Qed.

(** [_archive_session] makes no request; it moves the file exactly when it
    returns, and then to [archive/<name>] (or inside it). *)
Lemma archive_session_events (f d : path) (w : world) :
  ∃ r m' evs,
    _archive_session f d w = (r, World m' (clock w) (trace w ++ evs)) ∧
    count_posts evs = 0%nat ∧
    count_accepted evs = 0%nat ∧
    count_moves evs = (if r is Ok _ then 1 else 0)%nat ∧
    Forall (λ ev, is_move ev = true →
              ev = EvMove f (path_join (path_join d "archive") (path_name f)) ∨
              ev = EvMove f (path_join (path_join (path_join d "archive")
                                                  (path_name f)) (path_name f)))
           evs.
Proof.
  destruct w as [m c tr].
  unfold _archive_session, mkdir_exist_ok, shutil_move, os_rename.
  munfold. simpl.
  repeat (case_match; simplify_eq/=).
  all: rewrite <- ?app_assoc; simpl.
  all: first [ eexists _, _, []; split; [by rewrite app_nil_r|]
             | eexists _, _, _; split; [reflexivity|] ].
  all: split_and!; try done.
  all: repeat (apply Forall_cons; split); try apply Forall_nil; simpl; try done.
  all: intros _; first [by left | by right].
Qed.

(** One turn of the upload loop, whatever the file and the world: it
    returns; the count goes up by the number of files it moved, which is at
    most the number of accepted requests it made; the error list only
    grows. *)
Lemma upload_step_counts (agent_id : string) (d : path)
    (endpoint api_key : string) (f : path) (acc : Z * list string) (w : world) :
  ∃ acc' m' evs,
    upload_step agent_id d endpoint api_key f acc w
    = (Ok acc', World m' (clock w) (trace w ++ evs)) ∧
    acc'.1 = acc.1 + Z.of_nat (count_moves evs) ∧
    (count_moves evs ≤ count_accepted evs)%nat ∧
    (count_accepted evs ≤ count_posts evs)%nat ∧
    (count_posts evs ≤ 1)%nat ∧
    (∃ new, acc'.2 = acc.2 ++ new) ∧
    Forall (λ ev, is_move ev = true →
              ev = EvMove f (path_join (path_join d "archive") (path_name f)) ∨
              ev = EvMove f (path_join (path_join (path_join d "archive")
                                                  (path_name f)) (path_name f)))
           evs.
Proof.
  destruct acc as [u errs]. unfold upload_step. simpl.
  destruct (_extract_session_id (path_name f)) as [sid|].
  2:{ exists (u, errs ++ ["Invalid session filename: " +:+ path_name f]),
        (fs w), [].
      rewrite app_nil_r. destruct w. simpl.
      change (count_moves []) with 0%nat. change (count_accepted []) with 0%nat.
      change (count_posts []) with 0%nat.
      split_and!; try done; try lia; eauto. }
  destruct (upload_session_events agent_id sid f endpoint api_key w)
    as (r & evs1 & Hup & Hm1 & Hp1 & Hap1 & Hok1).
  unfold try_except, bind at 1. rewrite Hup.
  destruct r as [[|]|e].
  - set (w1 := World (fs w) (clock w) (trace w ++ evs1)).
    destruct (archive_session_events f d w1)
      as (r2 & m2 & evs2 & Har & Hp2 & Ha2 & Hm2 & Hfa2).
    unfold bind at 1. rewrite Har. simpl in *.
    specialize (Hok1 eq_refl).
    destruct r2 as [[]|e]; munfold; simpl.
    + exists (u + 1, errs), m2,
        (evs1 ++ evs2 ++ [EvLog INFO ("Uploaded and archived: " +:+ sid)]).
      rewrite <- !app_assoc. split; [done|]. simpl. counts.
      split_and!; try lia.
      * exists []. by rewrite app_nil_r.
      * rewrite !Forall_app. split_and!; [|done|by repeat constructor].
        by apply count_moves_0_no_move.
    + exists (u, errs ++ ["Error uploading " +:+ sid +:+ ": " +:+ str_exn e]), m2,
        (evs1 ++ evs2 ++ [EvLog ERROR ("Error uploading session " +:+ sid)]).
      rewrite <- !app_assoc. split; [done|]. simpl. counts.
      split_and!; try lia; eauto.
      rewrite !Forall_app. split_and!; [|done|by repeat constructor].
      by apply count_moves_0_no_move.
  - munfold. simpl.
    exists (u, errs ++ ["Upload failed: " +:+ sid]), (fs w), evs1.
    simpl. split_and!; try done; try lia; eauto.
    by apply count_moves_0_no_move.
  - munfold. simpl.
    exists (u, errs ++ ["Error uploading " +:+ sid +:+ ": " +:+ str_exn e]),
      (fs w), (evs1 ++ [EvLog ERROR ("Error uploading session " +:+ sid)]).
    rewrite <- !app_assoc. split; [done|]. simpl. counts.
    split_and!; try lia; eauto.
    rewrite Forall_app. split; [|by repeat constructor].
    by apply count_moves_0_no_move.
Qed.

Lemma tallied_refl (acc : Z * list string) : tallied acc acc [].
Proof.
  unfold tallied. change (count_moves []) with 0%nat.
  split_and!; try done; try lia. exists []. by rewrite app_nil_r.
Qed.

Lemma tallied_trans (acc1 acc2 acc3 : Z * list string) (evs1 evs2 : list event) :
  tallied acc1 acc2 evs1 → tallied acc2 acc3 evs2 →
  tallied acc1 acc3 (evs1 ++ evs2).
Proof.
  intros (Hu1 & Hm1 & Ha1 & [n1 Hn1] & Hf1) (Hu2 & Hm2 & Ha2 & [n2 Hn2] & Hf2).
  unfold tallied. counts. split_and!; try lia.
  - exists (n1 ++ n2). by rewrite Hn2, Hn1, app_assoc.
  - by apply Forall_app.
Qed.

Lemma tallied_log (acc : Z * list string) (lvl : level) (msg : string) :
  tallied acc acc [EvLog lvl msg].
Proof.
  unfold tallied. counts. split_and!; try done; try lia.
  - exists []. by rewrite app_nil_r.
  - by repeat constructor.
Qed.

(** A loop whose every turn returns and keeps the tally does so as a
    whole. *)
Lemma for_each_tallied {A} (Q : A → Prop)
    (body : A → Z * list string → M (Z * list string)) :
  (∀ x acc w, Q x →
     ∃ acc' m' evs,
       body x acc w = (Ok acc', World m' (clock w) (trace w ++ evs)) ∧
       tallied acc acc' evs) →
  ∀ l acc w, Forall Q l →
    ∃ acc' m' evs,
      for_each l acc body w = (Ok acc', World m' (clock w) (trace w ++ evs)) ∧
      tallied acc acc' evs.
Proof.
  intros Hbody l. induction l as [|x l IH]; intros acc w HQ.
  - exists acc, (fs w), []. rewrite app_nil_r. destruct w. simpl.
    split; [done|]. apply tallied_refl.
  - apply Forall_cons in HQ as [Hx HQ].
    destruct (Hbody x acc w Hx) as (acc1 & m1 & evs1 & Hb & Ht1).
    destruct (IH acc1 (World m1 (clock w) (trace w ++ evs1)) HQ)
      as (acc2 & m2 & evs2 & Hl & Ht2).
    exists acc2, m2, (evs1 ++ evs2). simpl. unfold bind. rewrite Hb, Hl. simpl.
    rewrite <- app_assoc. split; [done|]. by eapply tallied_trans.
Qed.

(** *** Globbing and candidates *)

Lemma path_name_join (d : path) (n : string) : path_name (path_join d n) = n.
Proof. unfold path_name, path_join. by rewrite last_snoc. Qed.

Lemma path_join_inj (d : path) (n1 n2 : string) :
  path_join d n1 = path_join d n2 → n1 = n2.
Proof. unfold path_join. intros Heq%app_inv_head. by simplify_eq. Qed.

Lemma glob_match_spec (d p : path) :
  glob_match d p = true ↔ ∃ n, p = path_join d n ∧ fnmatch_jsonl n = true.
Proof.
  unfold glob_match. rewrite andb_true_iff, bool_decide_eq_true. split.
  - intros [Hp Hn]. eauto.
  - intros (n & -> & Hn). by rewrite path_name_join.
Qed.

Lemma elem_of_glob_jsonl (m : gmap path node) (d p : path) :
  p ∈ glob_jsonl m d ↔
  is_Some (m !! p) ∧ ∃ n, p = path_join d n ∧ fnmatch_jsonl n = true.
Proof.
  unfold glob_jsonl. rewrite list_elem_of_filter, glob_match_spec.
  rewrite list_elem_of_fmap. split.
  - intros [Hn ([p' x] & -> & Hin%elem_of_map_to_list)]. simpl. eauto.
  - intros [[x Hx] Hn]. split; [done|]. exists (p, x).
    by rewrite elem_of_map_to_list.
Qed.

Lemma NoDup_glob_jsonl (m : gmap path node) (d : path) :
  NoDup (glob_jsonl m d).
Proof. apply NoDup_filter, NoDup_fst_map_to_list. Qed.

Lemma find_completed_eq (d : path) (active : gset string) (w : world) :
  _find_completed_sessions d active w
  = (Ok (filter (λ file, is_completed (fs w) active file = true)
                (glob_jsonl (fs w) d)), w).
Proof. done. Qed.

(** The files [_find_completed_sessions] returns: the regular files
    directly inside the directory whose name matches [*.jsonl*], has a valid
    session id, and whose id is not active. *)
Lemma elem_of_completed (m : gmap path node) (d : path) (active : gset string)
    (p : path) :
  p ∈ filter (λ file, is_completed m active file = true) (glob_jsonl m d) ↔
  ∃ n fd sid,
    p = path_join d n ∧ fnmatch_jsonl n = true ∧ m !! p = Some (File fd) ∧
    _extract_session_id n = Some sid ∧ sid ∉ active.
Proof.
  rewrite list_elem_of_filter, elem_of_glob_jsonl. unfold is_completed, is_file.
  split.
  - intros [Hc [_ (n & -> & Hn)]]. rewrite path_name_join in Hc.
    apply andb_true_iff in Hc as [Hf Hid].
    destruct (m !! path_join d n) as [[fd|]|] eqn:Hm; try done.
    destruct (_extract_session_id n) as [sid|] eqn:Hsid; [|done].
    apply bool_decide_eq_true in Hid. by exists n, fd, sid.
  - intros (n & fd & sid & -> & Hn & Hm & Hid & Hact).
    rewrite path_name_join, Hm, Hid. simpl. split.
    + by apply bool_decide_eq_true.
    + eauto.
Qed.

(** [_get_active_sessions] always returns, touches no file, and logs at
    most one warning. *)
Lemma get_active_sessions_events (d : path) (w : world) :
  ∃ active evs,
    _get_active_sessions d w
    = (Ok active, World (fs w) (clock w) (trace w ++ evs)) ∧
    (evs = [] ∨ ∃ msg, evs = [EvLog WARNING msg]).
Proof.
  destruct w as [m c tr].
  unfold _get_active_sessions, path_exists, open_json_load, read_text.
  munfold. simpl.
  repeat (case_match; simplify_eq/=).
  all: first [ eexists _, []; split; [by rewrite app_nil_r|by left]
             | eexists _, _; split; [reflexivity|right; eauto] ].
Qed.

(** *** The tally of a whole run *)

Lemma upload_step_tallied (agent_id : string) (d : path)
    (endpoint api_key : string) (f : path) (acc : Z * list string) (w : world) :
  (∃ n, f = path_join d n) →
  ∃ acc' m' evs,
    upload_step agent_id d endpoint api_key f acc w
    = (Ok acc', World m' (clock w) (trace w ++ evs)) ∧
    tallied acc acc' evs.
Proof.
  intros [n ->].
  destruct (upload_step_counts agent_id d endpoint api_key (path_join d n) acc w)
    as (acc' & m' & evs & Heq & Hu & Hm & Ha & _ & Hn & Hf).
  exists acc', m', evs. split; [done|]. unfold tallied. split_and!; try done.
  eapply Forall_impl; [exact Hf|]. intros ev Hev. rewrite path_name_join in Hev.
  destruct ev; try done. simpl. destruct (Hev eq_refl); simplify_eq; eauto.
Qed.

Lemma process_agent_tallied (agent_id : string) (d : path)
    (endpoint api_key : string) (w : world) :
  ∃ r m' evs,
    _process_agent agent_id d endpoint api_key w
    = (Ok r, World m' (clock w) (trace w ++ evs)) ∧
    tallied (0, []) r evs.
Proof.
  unfold _process_agent.
  destruct (get_active_sessions_events d w) as (active & evs0 & Hact & Hevs0).
  unfold bind at 1. rewrite Hact.
  unfold bind at 1. rewrite find_completed_eq. simpl.
  set (w0 := World (fs w) (clock w) (trace w ++ evs0)).
  assert (Ht0 : tallied (0, []) (0, []) evs0).
  { destruct Hevs0 as [->|[msg ->]]; [apply tallied_refl|apply tallied_log]. }
  destruct (filter _ (glob_jsonl (fs w) d)) as [|f l] eqn:Hcompleted.
  - munfold. simpl. eexists (0, []), _, (evs0 ++ [_]).
    rewrite <- app_assoc. split; [done|].
    eapply tallied_trans; [exact Ht0|apply tallied_log].
  - unfold bind at 1, log, emit. simpl.
    set (w1 := World _ _ _).
    destruct (for_each_tallied (λ f, ∃ n, f = path_join d n)
                (upload_step agent_id d endpoint api_key)
                (upload_step_tallied agent_id d endpoint api_key)
                (f :: l) (0, []) w1) as (acc' & m' & evs & Hloop & Ht).
    { rewrite <- Hcompleted. apply Forall_forall. intros p Hp.
      apply elem_of_completed in Hp as (n & _ & _ & -> & _). eauto. }
    change (bind _ _ w1) with
      (for_each (f :: l) (0, []) (upload_step agent_id d endpoint api_key) w1).
    rewrite Hloop. subst w1. simpl.
    exists acc', m', (evs0 ++ [EvLog INFO
      ("Found " +:+ pretty (length (f :: l)) +:+ " completed sessions for "
       +:+ agent_id)] ++ evs).
    rewrite <- !app_assoc. split; [done|].
    eapply tallied_trans; [exact Ht0|].
    eapply tallied_trans; [apply tallied_log|done].
Qed.

Lemma agent_step_tallied (self : Job.t) (endpoint api_key agent_id : string)
    (acc : Z * list string) (w : world) :
  ∃ acc' m' evs,
    agent_step self endpoint api_key agent_id acc w
    = (Ok acc', World m' (clock w) (trace w ++ evs)) ∧
    tallied acc acc' evs.
Proof.
  unfold agent_step. destruct (Job.agents self !! agent_id) as [cfg|].
  2:{ eexists _, (fs w), []. rewrite app_nil_r. destruct w. simpl.
      split; [done|]. unfold tallied. change (count_moves []) with 0%nat.
      simpl. split_and!; try done; try lia; eauto. }
  unfold path_exists. munfold. simpl.
  destruct (bool_decide (is_Some (fs w !! AgentConfig.sessions_dir cfg))); simpl.
  - destruct (process_agent_tallied agent_id (AgentConfig.sessions_dir cfg)
                endpoint api_key w) as (r & m' & evs & Heq & Hu & Hm & Ha & [new Hn] & Hf).
    rewrite Heq. exists (acc.1 + r.1, acc.2 ++ r.2), m', evs. split; [done|].
    unfold tallied. simpl in *. split_and!; try done; try lia; eauto.
  - eexists _, _, [_]. split; [done|]. destruct acc. apply tallied_log.
Qed.

(** [run] always returns; its result and the stretch of trace it adds. *)
Lemma run_tallied (self : Job.t) (endpoint api_key : string) (w : world) :
  ∃ r m' evs,
    run self endpoint api_key w
    = (Ok r, World m' (clock w) (trace w ++ evs)) ∧
    JobResult.job_id r = Job.id self ∧
    JobResult.success r
    = bool_decide (length (JobResult.errors r) = 0%nat)
      || bool_decide (0 < JobResult.items_processed r) ∧
    tallied (0, []) (JobResult.items_processed r, JobResult.errors r) evs.
Proof.
  unfold run. destruct (default [] (Job.config self !! "agents")) as [|a l].
  - eexists _, (fs w), []. rewrite app_nil_r. destruct w. simpl.
    split_and!; try done. apply tallied_refl.
  - destruct (for_each_tallied (λ _, True) (agent_step self endpoint api_key))
      with (l := a :: l) (acc := (0, @nil string)) (w := w)
      as (acc' & m' & evs & Hloop & Ht).
    { intros x acc w' _. apply agent_step_tallied. }
    { by apply Forall_forall. }
    unfold bind. rewrite Hloop. munfold. simpl.
    eexists _, m', evs. split; [done|]. simpl. by split_and!.
Qed.

(** *** The job result *)

(** C4: [run] always returns a result, and the result's [success] is true
    exactly when its error list is empty or at least one item was
    processed. *)
Theorem run_success_iff_no_error_or_progress (self : Job.t)
    (endpoint api_key : string) (w : world) :
  ∃ r w',
    run self endpoint api_key w = (Ok r, w') ∧
    (JobResult.success r = true ↔
     JobResult.errors r = [] ∨ 0 < JobResult.items_processed r).
Proof.
  destruct (run_tallied self endpoint api_key w)
    as (r & m' & evs & Hrun & _ & Hsuccess & _).
  eexists r, _. split; [exact Hrun|].
  rewrite Hsuccess, orb_true_iff, !bool_decide_eq_true.
  by rewrite length_zero_iff_nil.
Qed.

(** C8: with no ["agents"] option, or with an empty one, [run] is the
    computation that only returns the successful result with no item
    processed and no error: it reads no file, sends nothing, logs nothing,
    and leaves every world as it found it. *)
Theorem run_without_agents_is_noop (self : Job.t) (endpoint api_key : string) :
  Job.config self !! "agents" = None ∨ Job.config self !! "agents" = Some [] →
  run self endpoint api_key
  = ret (JobResult.Make (Job.id self) true "No agents configured" 0 []) ∧
  ∀ w, run self endpoint api_key w
       = (Ok (JobResult.Make (Job.id self) true "No agents configured" 0 []), w).
Proof.
  intros Hagents.
  assert (Hrun : run self endpoint api_key
                 = ret (JobResult.Make (Job.id self) true
                                       "No agents configured" 0 [])).
  { unfold run. by destruct Hagents as [-> | ->]. }
  split; [done|]. intros w. by rewrite Hrun.
Qed.

(** C10: in every run, [items_processed] is the number of files the run
    moved, and every move of the run took a file of a sessions directory
    into that directory's [archive/]; no more files were moved than upload
    requests were accepted (status 200 or 409).  Turn by turn: one turn of
    the upload loop makes at most one request, moves at most as many files
    as the endpoint accepted requests, and adds to the count exactly the
    number of files it moved, so a failed or skipped file is never
    counted. *)
Theorem items_processed_counts_archived_files (self : Job.t)
    (endpoint api_key : string) (w : world) :
  (∃ r m' evs,
     run self endpoint api_key w
     = (Ok r, World m' (clock w) (trace w ++ evs)) ∧
     JobResult.items_processed r = Z.of_nat (count_moves evs) ∧
     Forall archive_move evs ∧
     (count_moves evs ≤ count_accepted evs)%nat) ∧
  (∀ agent_id d f acc w1,
     ∃ acc' m' evs,
       upload_step agent_id d endpoint api_key f acc w1
       = (Ok acc', World m' (clock w1) (trace w1 ++ evs)) ∧
       acc'.1 = acc.1 + Z.of_nat (count_moves evs) ∧
       (count_moves evs ≤ count_accepted evs)%nat ∧
       (count_accepted evs ≤ count_posts evs)%nat ∧
       (count_posts evs ≤ 1)%nat).
Proof.
  split.
  - destruct (run_tallied self endpoint api_key w)
      as (r & m' & evs & Hrun & _ & _ & Hu & Hm & _ & _ & Hf).
    exists r, m', evs. simpl in Hu. by split_and!.
  - intros agent_id d f acc w1.
    destruct (upload_step_counts agent_id d endpoint api_key f acc w1)
      as (acc' & m' & evs & Heq & Hu & Hm & Ha & Hp & _).
    by exists acc', m', evs.
Qed.

(** *** One candidate file *)

Lemma upload_session_too_large (agent_id sid : string) (f : path)
    (endpoint api_key : string) (w : world) (fd : file_data) :
  fs w !! f = Some (File fd) →
  MAX_TRANSCRIPT_BYTES < st_size fd →
  _upload_session agent_id sid f endpoint api_key w
  = (Ok false,
     World (fs w) (clock w)
           (trace w ++
            [EvLog WARNING
               ("Session " +:+ sid +:+ " too large ("
                +:+ commas (st_size fd) +:+ " bytes), max is "
                +:+ commas MAX_TRANSCRIPT_BYTES +:+ " bytes — skipping")])).
Proof.
  intros Hf Hsize. unfold _upload_session, stat_st_size. munfold. rewrite Hf.
  simpl. by rewrite bool_decide_eq_true_2.
Qed.

Lemma upload_session_unreadable (agent_id sid : string) (f : path)
    (endpoint api_key : string) (w : world) (fd : file_data) :
  fs w !! f = Some (File fd) →
  st_size fd ≤ MAX_TRANSCRIPT_BYTES →
  text fd = None →
  _upload_session agent_id sid f endpoint api_key w
  = (Err UnicodeDecodeError, w).
Proof.
  intros Hf Hsize Htext. unfold _upload_session, stat_st_size, read_text.
  munfold. rewrite Hf. simpl. rewrite bool_decide_eq_false_2 by lia.
  by rewrite Hf, Htext.
Qed.

Lemma upload_session_requested (agent_id sid : string) (f : path)
    (endpoint api_key : string) (w : world) (fd : file_data) (t : string) :
  fs w !! f = Some (File fd) →
  st_size fd ≤ MAX_TRANSCRIPT_BYTES →
  text fd = Some t →
  let rq := upload_request agent_id sid t endpoint api_key in
  let o := post_outcome (trace w) rq in
  _upload_session agent_id sid f endpoint api_key w
  = (Ok (accepted o),
     World (fs w) (clock w) (trace w ++ EvPost rq o :: response_log sid o)).
Proof.
  intros Hf Hsize Htext rq o. subst rq o. unfold upload_request.
  unfold _upload_session, stat_st_size, read_text, requests_post.
  munfold. rewrite Hf. simpl. rewrite bool_decide_eq_false_2 by lia.
  rewrite Hf, Htext. unfold accepted, response_log.
  destruct (post_outcome _ _) as [sc body|msg]; simpl; rewrite <- ?app_assoc;
    [|done].
  repeat case_bool_decide; subst; simpl; rewrite <- ?app_assoc; done.
Qed.

Lemma extract_session_id_not_archive (n sid : string) :
  _extract_session_id n = Some sid → n ≠ "archive".
Proof. intros Hid ->. by vm_compute in Hid. Qed.

(** The four places of an archiving are pairwise different, and differ from
    the entries of the directory. *)
Lemma archive_paths_distinct (d : path) (n n' : string) :
  n ≠ "archive" →
  path_join d n ≠ archive_dir d ∧
  path_join d n ≠ archive_dest d n' ∧
  path_join d n ≠ archive_nested d n' ∧
  archive_dest d n' ≠ archive_dir d ∧
  archive_nested d n' ≠ archive_dir d ∧
  archive_dest d n ≠ archive_nested d n'.
Proof.
  intros Hn. unfold archive_nested, archive_dest, archive_dir, path_join.
  split_and!; intros Heq.
  - apply app_inv_head in Heq. by simplify_eq.
  - apply (f_equal length) in Heq. rewrite !length_app in Heq. simpl in Heq. lia.
  - apply (f_equal length) in Heq. rewrite !length_app in Heq. simpl in Heq. lia.
  - apply (f_equal length) in Heq. rewrite !length_app in Heq. simpl in Heq. lia.
  - apply (f_equal length) in Heq. rewrite !length_app in Heq. simpl in Heq. lia.
  - apply (f_equal length) in Heq. rewrite !length_app in Heq. simpl in Heq. lia.
Qed.

Lemma archive_dest_inj (d : path) (n n' : string) :
  archive_dest d n = archive_dest d n' → n = n'.
Proof. apply path_join_inj. Qed.

(** [_archive_session] on a regular file [n] of [d]: what it leaves alone,
    what a failure leaves behind, and when it succeeds. *)
Lemma archive_session_candidate (d : path) (n : string) (fd : file_data)
    (w : world) :
  fs w !! path_join d n = Some (File fd) →
  n ≠ "archive" →
  ∃ r w',
    _archive_session (path_join d n) d w = (r, w') ∧
    (∀ p, p ≠ path_join d n → p ≠ archive_dir d → p ≠ archive_dest d n →
          p ≠ archive_nested d n → fs w' !! p = fs w !! p) ∧
    (fs w !! archive_dir d = Some Dir → fs w' !! archive_dir d = Some Dir) ∧
    ((∀ x, fs w !! archive_dir d ≠ Some (File x)) →
     ∀ x, fs w' !! archive_dir d ≠ Some (File x)) ∧
    (∀ e, r = Err e →
          fs w' !! path_join d n = Some (File fd) ∧
          fs w' !! archive_dest d n = fs w !! archive_dest d n) ∧
    ((∀ x, fs w !! archive_dir d ≠ Some (File x)) →
     fs w !! archive_dest d n ≠ Some Dir →
     r = Ok tt ∧ fs w' !! path_join d n = None ∧
     fs w' !! archive_dest d n = Some (File fd) ∧
     fs w' !! archive_dir d = Some Dir).
Proof.
  intros Hf Hn.
  destruct (archive_paths_distinct d n n Hn) as (HFA & HFD & HFE & HDA & HEA & HDE).
  unfold _archive_session. rewrite path_name_join.
  fold (archive_dir d). fold (archive_dest d n).
  unfold shutil_move. rewrite path_name_join. fold (archive_nested d n).
  destruct w as [m c tr]. simpl in *.
  generalize dependent (archive_nested d n). intros E HFE HEA HDE.
  generalize dependent (archive_dest d n). intros D HFD HDA HDE.
  generalize dependent (archive_dir d). intros A HFA HDA HEA.
  generalize dependent (path_join d n). intros F Hf HFA HFD HFE.
  unfold mkdir_exist_ok, os_rename. munfold. simpl.
  repeat (case_match; simplify_map_eq/=); bool_facts.
  all: eexists _, _; split; [reflexivity|]; simpl.
  all: split_and!; try done; intros; simplify_map_eq/=; try done.
  exfalso.
  match goal with
  | Hno : ∀ x, Some (File ?y) ≠ Some (File x) |- _ => by apply (Hno y)
  end.
Qed.

(** One turn of the upload loop on a regular file [n] of [d] with a valid
    session id. *)
Lemma upload_step_candidate (agent_id : string) (d : path)
    (endpoint api_key : string) (n sid : string) (fd : file_data)
    (acc : Z * list string) (w : world) :
  fs w !! path_join d n = Some (File fd) →
  _extract_session_id n = Some sid →
  ∃ acc' w',
    upload_step agent_id d endpoint api_key (path_join d n) acc w
    = (Ok acc', w') ∧
    (∀ p, p ≠ path_join d n → p ≠ archive_dir d → p ≠ archive_dest d n →
          p ≠ archive_nested d n → fs w' !! p = fs w !! p) ∧
    (fs w !! archive_dir d = Some Dir → fs w' !! archive_dir d = Some Dir) ∧
    ((∀ x, fs w !! archive_dir d ≠ Some (File x)) →
     ∀ x, fs w' !! archive_dir d ≠ Some (File x)) ∧
    (∃ new, acc'.2 = acc.2 ++ new) ∧
    (acc'.1 = acc.1 →
     fs w' !! path_join d n = Some (File fd) ∧
     fs w' !! archive_dest d n = fs w !! archive_dest d n) ∧
    (MAX_TRANSCRIPT_BYTES < st_size fd →
     acc' = (acc.1, acc.2 ++ ["Upload failed: " +:+ sid]) ∧
     fs w' = fs w ∧
     trace w'
     = trace w ++
       [EvLog WARNING
          ("Session " +:+ sid +:+ " too large ("
           +:+ commas (st_size fd) +:+ " bytes), max is "
           +:+ commas MAX_TRANSCRIPT_BYTES +:+ " bytes — skipping")]) ∧
    (st_size fd ≤ MAX_TRANSCRIPT_BYTES → ∀ t, text fd = Some t →
     let rq := upload_request agent_id sid t endpoint api_key in
     let o := post_outcome (trace w) rq in
     (∃ rest, trace w' = trace w ++ EvPost rq o :: rest) ∧
     (accepted o = false →
      acc' = (acc.1, acc.2 ++ ["Upload failed: " +:+ sid]) ∧ fs w' = fs w) ∧
     (accepted o = true →
      (∀ x, fs w !! archive_dir d ≠ Some (File x)) →
      fs w !! archive_dest d n ≠ Some Dir →
      acc' = (acc.1 + 1, acc.2) ∧
      fs w' !! path_join d n = None ∧
      fs w' !! archive_dest d n = Some (File fd) ∧
      fs w' !! archive_dir d = Some Dir)).
Proof.
  intros Hf Hid. pose proof (extract_session_id_not_archive n sid Hid) as Hn.
  unfold upload_step. rewrite path_name_join, Hid.
  destruct (decide (MAX_TRANSCRIPT_BYTES < st_size fd)) as [Hbig|Hsmall].
  { unfold try_except, bind.
    rewrite (upload_session_too_large _ _ _ _ _ _ fd Hf Hbig). munfold.
    eexists _, _. split; [reflexivity|]. simpl.
    split_and!; try done; eauto; lia. }
  apply Z.nlt_ge in Hsmall.
  destruct (text fd) as [t|] eqn:Htext.
  2:{ unfold try_except, bind.
      rewrite (upload_session_unreadable _ _ _ _ _ _ fd Hf Hsmall Htext).
      munfold. eexists _, _. split; [reflexivity|]. simpl.
      split_and!; try done; eauto; lia. }
  unfold try_except, bind at 1.
  rewrite (upload_session_requested _ _ _ _ _ _ fd t Hf Hsmall Htext).
  set (rq := upload_request agent_id sid t endpoint api_key).
  set (o := post_outcome (trace w) rq).
  destruct (accepted o) eqn:Hacc.
  2:{ munfold. eexists _, _. split; [reflexivity|]. simpl.
      split_and!; try done; eauto; try lia.
      intros _ t' Ht'. simplify_eq. fold rq. fold o. rewrite Hacc.
      split_and!; try done; eauto. }
  set (w1 := World (fs w) (clock w) (trace w ++ EvPost rq o :: response_log sid o)).
  destruct (archive_session_candidate d n fd w1 Hf Hn)
    as (r & w2 & Har & Hframe & HAdir & HAfile & Herr & Hok).
  unfold bind at 1. rewrite Har.
  assert (Htr : ∃ evs, trace w2 = trace w1 ++ evs).
  { destruct (archive_session_events (path_join d n) d w1)
      as (r' & m' & evs & Har' & _). rewrite Har in Har'. simplify_eq. eauto. }
  destruct Htr as [evs2 Htr].
  destruct r as [[]|e]; munfold; simpl.
  - eexists _, _. split; [reflexivity|]. simpl.
    split_and!; try done; eauto; try lia.
    + exists []. by rewrite app_nil_r.
    + intros _ t' Ht'. simplify_eq. fold rq. fold o. rewrite Hacc.
      split_and!; try done.
      * rewrite Htr. simpl. rewrite <- !app_assoc. simpl. eauto.
      * intros _ HA HD. destruct (Hok HA HD) as (_ & ? & ? & ?). done.
  - eexists _, _. split; [reflexivity|]. simpl.
    split_and!; try done; eauto; try lia.
    intros _ t' Ht'. simplify_eq. fold rq. fold o. rewrite Hacc.
    split_and!; try done.
    + rewrite Htr. simpl. rewrite <- !app_assoc. simpl. eauto.
    + intros _ HA HD. by destruct (Hok HA HD) as (? & _).
Qed.

(** *** The upload loop over the candidates *)

Lemma for_each_app {A S} (l1 l2 : list A) (s : S) (body : A → S → M S)
    (w : world) :
  for_each (l1 ++ l2) s body w
  = match for_each l1 s body w with
    | (Ok s1, w1) => for_each l2 s1 body w1
    | (Err e, w1) => (Err e, w1)
    end.
Proof.
  revert s w. induction l1 as [|x l1 IH]; intros s w; simpl; [done|].
  unfold bind. destruct (body x s w) as [[s'|e] w']; [apply IH|done].
Qed.

(** The loop over a list of distinct candidates returns; it leaves alone
    every place that is neither [archive/] nor one of the places of its
    files; [archive/] stays a directory once it is one and never becomes a
    regular file; errors are only added. *)
Lemma upload_loop_frame (agent_id : string) (d : path)
    (endpoint api_key : string) (l : list path) :
  ∀ (acc : Z * list string) (w : world),
    NoDup l → Forall (candidate d w) l →
    ∃ acc' w',
      for_each l acc (upload_step agent_id d endpoint api_key) w
      = (Ok acc', w') ∧
      (∀ p, p ≠ archive_dir d →
            (∀ n, path_join d n ∈ l →
                  p ≠ path_join d n ∧ p ≠ archive_dest d n ∧
                  p ≠ archive_nested d n) →
            fs w' !! p = fs w !! p) ∧
      (fs w !! archive_dir d = Some Dir → fs w' !! archive_dir d = Some Dir) ∧
      ((∀ x, fs w !! archive_dir d ≠ Some (File x)) →
       ∀ x, fs w' !! archive_dir d ≠ Some (File x)) ∧
      (∃ new, acc'.2 = acc.2 ++ new) ∧
      (∃ evs, trace w' = trace w ++ evs).
Proof.
  induction l as [|f l IH]; intros acc w Hnd Hcand.
  - exists acc, w. split_and!; try done.
    + exists []. by rewrite app_nil_r.
    + exists []. by rewrite app_nil_r.
  - apply NoDup_cons in Hnd as [Hfl Hnd].
    apply Forall_cons in Hcand as [(n & fd & sid & -> & Hf & Hid) Hcand].
    destruct (upload_step_candidate agent_id d endpoint api_key n sid fd acc w
                Hf Hid)
      as (acc1 & w1 & Hstep & Hfr1 & HAd1 & HAf1 & [new1 Hn1] & _).
    assert (Htr1 : ∃ evs, trace w1 = trace w ++ evs).
    { destruct (upload_step_counts agent_id d endpoint api_key (path_join d n)
                  acc w) as (? & ? & evs & Heq & _).
      rewrite Hstep in Heq. simplify_eq. eauto. }
    destruct Htr1 as [evs1 Htr1].
    assert (Hcand1 : Forall (candidate d w1) l).
    { apply Forall_forall. intros f' Hin.
      apply (proj1 (Forall_forall _ _) Hcand) in Hin as Hc.
      destruct Hc as (n' & fd' & sid' & -> & Hf' & Hid').
      exists n', fd', sid'. split_and!; try done.
      pose proof (extract_session_id_not_archive n' sid' Hid') as Hn'.
      destruct (archive_paths_distinct d n' n Hn') as (? & ? & ? & _).
      rewrite Hfr1; try done. intros Heq. by rewrite Heq in Hin. }
    destruct (IH acc1 w1 Hnd Hcand1)
      as (acc2 & w2 & Hloop & Hfr2 & HAd2 & HAf2 & [new2 Hn2] & [evs2 Htr2]).
    exists acc2, w2. simpl. unfold bind. rewrite Hstep.
    split_and!; try done.
    + intros p HpA Hp. rewrite Hfr2; [|done|].
      * destruct (Hp n) as (? & ? & ?); [apply list_elem_of_here|].
        by apply Hfr1.
      * intros n' Hn'. apply Hp. by apply list_elem_of_further.
    + eauto.
    + eauto.
    + exists (new1 ++ new2). by rewrite Hn2, Hn1, app_assoc.
    + exists (evs1 ++ evs2). by rewrite Htr2, Htr1, app_assoc.
Qed.

(** The turn of one candidate inside the loop: the turns before it leave
    the file and its place in [archive/] as they were, and the turns after
    it leave them as its own turn left them. *)
Lemma upload_loop_turn (agent_id : string) (d : path)
    (endpoint api_key : string) (l1 l2 : list path) (n : string)
    (acc : Z * list string) (w : world) :
  let step := upload_step agent_id d endpoint api_key in
  NoDup (l1 ++ path_join d n :: l2) →
  Forall (candidate d w) (l1 ++ path_join d n :: l2) →
  ∃ fd sid acc1 w1 acc2 w2 acc' w',
    fs w !! path_join d n = Some (File fd) ∧
    _extract_session_id n = Some sid ∧
    for_each l1 acc step w = (Ok acc1, w1) ∧
    step (path_join d n) acc1 w1 = (Ok acc2, w2) ∧
    for_each l2 acc2 step w2 = (Ok acc', w') ∧
    for_each (l1 ++ path_join d n :: l2) acc step w = (Ok acc', w') ∧
    fs w1 !! path_join d n = Some (File fd) ∧
    fs w1 !! archive_dest d n = fs w !! archive_dest d n ∧
    ((∀ x, fs w !! archive_dir d ≠ Some (File x)) →
     ∀ x, fs w1 !! archive_dir d ≠ Some (File x)) ∧
    fs w' !! path_join d n = fs w2 !! path_join d n ∧
    fs w' !! archive_dest d n = fs w2 !! archive_dest d n ∧
    (fs w2 !! archive_dir d = Some Dir → fs w' !! archive_dir d = Some Dir) ∧
    (∃ new, acc'.2 = acc2.2 ++ new) ∧
    (∃ evs, trace w' = trace w2 ++ evs).
Proof.
  intros step Hnd Hcand.
  apply NoDup_app in Hnd as (Hnd1 & Hdisj & [Hnot2 Hnd2]%NoDup_cons).
  apply Forall_app in Hcand as [Hc1 [Hcf Hc2]%Forall_cons].
  destruct Hcf as (n0 & fd & sid & Hn0 & Hf & Hid).
  apply path_join_inj in Hn0 as <-.
  pose proof (extract_session_id_not_archive n sid Hid) as Hn.
  (* a place of this file is no place of another candidate *)
  assert (Hother : ∀ l, Forall (candidate d w) l → path_join d n ∉ l →
            ∀ p, (p = path_join d n ∨ p = archive_dest d n) →
                 p ≠ archive_dir d ∧
                 ∀ n', path_join d n' ∈ l →
                       p ≠ path_join d n' ∧ p ≠ archive_dest d n' ∧
                       p ≠ archive_nested d n').
  { intros l Hcl Hnotin p Hp.
    destruct (archive_paths_distinct d n n Hn) as (? & ? & ? & ? & ? & ?).
    split; [by destruct Hp as [-> | ->]|].
    intros n' Hin.
    apply (proj1 (Forall_forall _ _) Hcl) in Hin as Hc.
    destruct Hc as (n'' & fd' & sid' & Heq & _ & Hid').
    apply path_join_inj in Heq as <-.
    pose proof (extract_session_id_not_archive n' sid' Hid') as Hn'.
    assert (n ≠ n') by (intros ->; done).
    destruct (archive_paths_distinct d n n' Hn) as (? & ? & ? & ? & ? & ?).
    destruct (archive_paths_distinct d n' n Hn') as (? & ? & ? & ? & ? & ?).
    destruct Hp as [-> | ->]; split_and!; try done.
    - intros Heq%path_join_inj. done.
    - intros Heq. by apply archive_dest_inj in Heq.
  }
  destruct (upload_loop_frame agent_id d endpoint api_key l1 acc w Hnd1 Hc1)
    as (acc1 & w1 & Hloop1 & Hfr1 & _ & HAf1 & _ & _).
  assert (Hnot1 : path_join d n ∉ l1).
  { intros Hin. apply (Hdisj _ Hin). apply list_elem_of_here. }
  assert (Hf1 : fs w1 !! path_join d n = Some (File fd)).
  { destruct (Hother l1 Hc1 Hnot1 (path_join d n)) as [? ?]; [by left|].
    by rewrite Hfr1. }
  assert (HD1 : fs w1 !! archive_dest d n = fs w !! archive_dest d n).
  { destruct (Hother l1 Hc1 Hnot1 (archive_dest d n)) as [? ?]; [by right|].
    by rewrite Hfr1. }
  destruct (upload_step_candidate agent_id d endpoint api_key n sid fd acc1 w1
              Hf1 Hid)
    as (acc2 & w2 & Hstep & Hfr2 & _).
  assert (Hc2' : Forall (candidate d w2) l2).
  { apply Forall_forall. intros f' Hin.
    apply (proj1 (Forall_forall _ _) Hc2) in Hin as Hc.
    destruct Hc as (n' & fd' & sid' & -> & Hf' & Hid').
    exists n', fd', sid'. split_and!; try done.
    pose proof (extract_session_id_not_archive n' sid' Hid') as Hn'.
    assert (n' ≠ n) by (intros ->; done).
    destruct (archive_paths_distinct d n' n Hn') as (? & ? & ? & _).
    rewrite Hfr2; try done.
    - assert (Hin1 : path_join d n' ∉ l1).
      { intros Hin1. apply (Hdisj _ Hin1). by apply list_elem_of_further. }
      assert (Hcl1 : Forall (candidate d w) l1) by done.
      rewrite Hfr1; [done|done|].
      intros n'' Hin''.
      apply (proj1 (Forall_forall _ _) Hc1) in Hin'' as Hc.
      destruct Hc as (n3 & fd3 & sid3 & Heq & _ & Hid3).
      apply path_join_inj in Heq as <-.
      destruct (archive_paths_distinct d n' n'' Hn') as (? & ? & ? & _).
      split_and!; try done. intros Heq%path_join_inj. by subst.
    - intros Heq%path_join_inj. done. }
  destruct (upload_loop_frame agent_id d endpoint api_key l2 acc2 w2 Hnd2 Hc2')
    as (acc' & w' & Hloop2 & Hfr3 & HAd3 & _ & Hnew3 & Htr3).
  subst step. exists fd, sid, acc1, w1, acc2, w2, acc', w'.
  split_and!; try done.
  - rewrite for_each_app, Hloop1. simpl. unfold bind. by rewrite Hstep.
  - destruct (Hother l2 Hc2 Hnot2 (path_join d n)) as [? ?]; [by left|].
    by apply Hfr3.
  - destruct (Hother l2 Hc2 Hnot2 (archive_dest d n)) as [? ?]; [by right|].
    by apply Hfr3.
Qed.

(** *** [_process_agent], candidate by candidate *)

Lemma get_active_sessions_fs (d : path) (w wa : world) (active : gset string) :
  _get_active_sessions d w = (Ok active, wa) → fs wa = fs w.
Proof.
  intros Hact.
  destruct (get_active_sessions_events d w) as (active' & evs & Heq & _).
  rewrite Hact in Heq. by simplify_eq.
Qed.

Lemma completed_candidates (d : path) (active : gset string) (wa : world)
    (completed : list path) :
  _find_completed_sessions d active wa = (Ok completed, wa) →
  NoDup completed ∧
  ∀ w, fs w = fs wa → Forall (candidate d w) completed.
Proof.
  rewrite find_completed_eq. intros Heq. simplify_eq. split.
  - apply NoDup_filter, NoDup_glob_jsonl.
  - intros w Hfs. apply Forall_forall. intros p Hp.
    apply elem_of_completed in Hp as (n & fd & sid & -> & _ & Hf & Hid & _).
    exists n, fd, sid. by rewrite Hfs.
Qed.

Lemma process_agent_loop (agent_id : string) (d : path)
    (endpoint api_key : string) (w wa : world) (active : gset string)
    (completed : list path) :
  _get_active_sessions d w = (Ok active, wa) →
  _find_completed_sessions d active wa = (Ok completed, wa) →
  completed ≠ [] →
  _process_agent agent_id d endpoint api_key w
  = for_each completed (0, []) (upload_step agent_id d endpoint api_key)
             (loop_start agent_id completed wa).
Proof.
  intros Hact Hfind Hne. unfold _process_agent.
  unfold bind at 1. rewrite Hact. unfold bind at 1. rewrite Hfind.
  destruct completed as [|f l]; [done|]. done.
Qed.


(** The turn of a candidate [f] inside [_process_agent]: the function
    returns; when the file passes the size guard and reads as text, its
    request is made in the world [w1] its turn starts in, and the outcome
    [o] decides what is left in the end. *)
Lemma process_agent_turn (agent_id : string) (d : path)
    (endpoint api_key : string) (w wa : world) (active : gset string)
    (l1 l2 : list path) (f : path) :
  _get_active_sessions d w = (Ok active, wa) →
  _find_completed_sessions d active wa = (Ok (l1 ++ f :: l2), wa) →
  ∃ n fd sid acc1 w1 uploaded errors w',
    f = path_join d n ∧
    fs w !! f = Some (File fd) ∧
    _extract_session_id n = Some sid ∧
    for_each l1 (0, []) (upload_step agent_id d endpoint api_key)
             (loop_start agent_id (l1 ++ f :: l2) wa)
    = (Ok acc1, w1) ∧
    _process_agent agent_id d endpoint api_key w
    = (Ok (uploaded, errors), w') ∧
    ∀ t, st_size fd ≤ MAX_TRANSCRIPT_BYTES → text fd = Some t →
      let rq := upload_request agent_id sid t endpoint api_key in
      let o := post_outcome (trace w1) rq in
      EvPost rq o ∈ trace w' ∧
      (accepted o = true →
         (∀ x, fs w !! archive_dir d ≠ Some (File x)) →
         fs w !! archive_dest d n ≠ Some Dir →
         fs w' !! f = None ∧
         fs w' !! archive_dest d n = Some (File fd) ∧
         fs w' !! archive_dir d = Some Dir) ∧
      (accepted o = false →
         fs w' !! f = Some (File fd) ∧
         fs w' !! archive_dest d n = fs w !! archive_dest d n ∧
         ("Upload failed: " +:+ sid) ∈ errors).
Proof.
  intros Hact Hfind.
  pose proof (get_active_sessions_fs d w wa active Hact) as Hfs.
  destruct (completed_candidates d active wa _ Hfind) as [Hnd Hcand].
  set (w0 := loop_start agent_id (l1 ++ f :: l2) wa).
  specialize (Hcand w0 eq_refl).
  assert (Hf0 : ∃ n, f = path_join d n).
  { apply Forall_app in Hcand as [_ [(n & _ & _ & -> & _) _]%Forall_cons].
    eauto. }
  destruct Hf0 as [n ->].
  destruct (upload_loop_turn agent_id d endpoint api_key l1 l2 n (0, []) w0
              Hnd Hcand)
    as (fd & sid & acc1 & w1 & acc2 & w2 & [uploaded errors] & w' & Hf & Hid
        & Hloop1 & Hstep & Hloop2 & Hloop & Hf1 & HD1 & HA1 & Hf' & HD' & HAd'
        & [new Hnew] & [evs Htr]).
  exists n, fd, sid, acc1, w1, uploaded, errors, w'.
  change (fs w0) with (fs wa) in *. rewrite Hfs in *.
  split_and!; try done.
  { rewrite (process_agent_loop agent_id d endpoint api_key w wa active
               (l1 ++ path_join d n :: l2) Hact Hfind); [done|].
    by destruct l1. }
  intros t Hsize Htext rq o.
  destruct (upload_step_candidate agent_id d endpoint api_key n sid fd acc1 w1
              Hf1 Hid)
    as (acc2' & w2' & Hstep' & _ & _ & _ & _ & _ & _ & Hreq).
  rewrite Hstep in Hstep'. simplify_eq.
  destruct (Hreq Hsize t Htext) as ([rest Hpost] & Hrej & Hacc).
  fold rq in Hpost, Hrej, Hacc. fold o in Hpost, Hrej, Hacc.
  assert (Hfailed : accepted o = false →
            fs w' !! path_join d n = Some (File fd) ∧
            fs w' !! archive_dest d n = fs w !! archive_dest d n ∧
            ("Upload failed: " +:+ sid) ∈ errors).
  { intros Ho. destruct (Hrej Ho) as [-> Hfs2].
    rewrite Hf', HD', Hfs2, Hf1, HD1. split_and!; try done.
    simpl in Hnew. rewrite Hnew, !elem_of_app, list_elem_of_singleton. eauto. }
  split_and!.
  - rewrite Htr, Hpost, !elem_of_app, elem_of_cons. eauto.
  - intros Hao HA HD. rewrite <- HD1 in HD.
    destruct (Hacc Hao (HA1 HA) HD) as (_ & Hgone & Hthere & Hdir).
    rewrite Hf', HD'. split_and!; try done. by apply HAd'.
  - done.
Qed.


(** *** The size guard *)

(** C3: take a regular file [fd] of the directory with session id [sid].
    If its size is at most 10,485,760 bytes (so also when it is exactly
    that) and it reads as text [t], [_upload_session] makes the upload
    request, with that transcript.  If it is larger, [_upload_session]
    answers false after logging a warning and nothing else (no request is
    in the trace), and the turn of the loop records
    ["Upload failed: " + sid], counts nothing and leaves the file system
    as it was. *)
Theorem size_guard_boundary (agent_id : string) (d : path)
    (endpoint api_key : string) (n sid : string) (fd : file_data)
    (acc : Z * list string) (w : world) :
  fs w !! path_join d n = Some (File fd) →
  _extract_session_id n = Some sid →
  MAX_TRANSCRIPT_BYTES = 10485760 ∧
  (st_size fd ≤ 10485760 → ∀ t, text fd = Some t →
     let rq := upload_request agent_id sid t endpoint api_key in
     ∃ success rest,
       _upload_session agent_id sid (path_join d n) endpoint api_key w
       = (Ok success,
          World (fs w) (clock w)
                (trace w ++ EvPost rq (post_outcome (trace w) rq) :: rest))) ∧
  (10485760 < st_size fd →
     let warning :=
       EvLog WARNING
         ("Session " +:+ sid +:+ " too large ("
          +:+ commas (st_size fd) +:+ " bytes), max is "
          +:+ commas MAX_TRANSCRIPT_BYTES +:+ " bytes — skipping") in
     _upload_session agent_id sid (path_join d n) endpoint api_key w
     = (Ok false, World (fs w) (clock w) (trace w ++ [warning])) ∧
     upload_step agent_id d endpoint api_key (path_join d n) acc w
     = (Ok (acc.1, acc.2 ++ ["Upload failed: " +:+ sid]),
        World (fs w) (clock w) (trace w ++ [warning]))).
Proof.
  intros Hf Hid. split; [done|]. split.
  - intros Hsize t Htext rq.
    pose proof (upload_session_requested agent_id sid (path_join d n) endpoint
                  api_key w fd t Hf Hsize Htext) as Hreq.
    simpl in Hreq. fold rq in Hreq. eauto.
  - intros Hsize warning.
    pose proof (upload_session_too_large agent_id sid (path_join d n) endpoint
                  api_key w fd Hf Hsize) as Hbig.
    split; [done|].
    unfold upload_step. rewrite path_name_join, Hid.
    unfold try_except, bind. rewrite Hbig. done.
Qed.

(** *** Active sessions *)

(** C7: [_get_active_sessions] returns the empty set, and leaves the world
    untouched, when [sessions.json] is missing; it returns the empty set
    after logging one warning when [sessions.json] is a directory, does not
    decode, or is not valid JSON; it returns the set of the keys when the
    document is an object (and the empty set, silently, for a valid document
    of another shape).  The scan then keeps a regular file matching
    [*.jsonl*] with a valid session id exactly when the id is not one of
    those keys; with a missing or unreadable [sessions.json] it keeps every
    such file. *)
Theorem active_sessions_discovery (d : path) (w : world) :
  let sessions_file := path_join d "sessions.json" in
  (fs w !! sessions_file = None → _get_active_sessions d w = (Ok ∅, w)) ∧
  (fs w !! sessions_file = Some Dir ∨
   (∃ fd, fs w !! sessions_file = Some (File fd) ∧
          (text fd = None ∨
           ∃ s msg, text fd = Some s ∧ json_loads s = inr msg)) →
   ∃ msg,
     _get_active_sessions d w
     = (Ok ∅,
        World (fs w) (clock w)
              (trace w ++
               [EvLog WARNING ("Error reading sessions.json: " +:+ msg)]))) ∧
  (∀ fd s keys,
     fs w !! sessions_file = Some (File fd) → text fd = Some s →
     json_loads s = inl (JObject keys) →
     _get_active_sessions d w = (Ok (list_to_set keys), w) ∧
     ∀ n fdn sid,
       fnmatch_jsonl n = true → fs w !! path_join d n = Some (File fdn) →
       _extract_session_id n = Some sid →
       ∃ completed,
         _find_completed_sessions d (list_to_set keys) w = (Ok completed, w) ∧
         (sid ∈ keys → path_join d n ∉ completed) ∧
         (sid ∉ keys → path_join d n ∈ completed)) ∧
  (∀ fd s,
     fs w !! sessions_file = Some (File fd) → text fd = Some s →
     json_loads s = inl JNotObject →
     _get_active_sessions d w = (Ok ∅, w)) ∧
  (∀ wa n fdn sid,
     _get_active_sessions d w = (Ok ∅, wa) →
     fnmatch_jsonl n = true → fs w !! path_join d n = Some (File fdn) →
     _extract_session_id n = Some sid →
     ∃ completed,
       _find_completed_sessions d ∅ wa = (Ok completed, wa) ∧
       path_join d n ∈ completed).
Proof.
  intros sessions_file. split_and!.
  - intros Hnone. unfold _get_active_sessions, path_exists. munfold.
    fold sessions_file. rewrite Hnone. simpl. by destruct w.
  - intros Hbad. unfold _get_active_sessions, path_exists, open_json_load,
      read_text. munfold. fold sessions_file.
    destruct Hbad as [Hdir | (fd & Hfile & [Htext | (s & msg & Htext & Hjson)])].
    + rewrite Hdir. simpl. rewrite Hdir. eauto.
    + rewrite Hfile. simpl. rewrite Hfile, Htext. eauto.
    + rewrite Hfile. simpl. rewrite Hfile, Htext, Hjson. eauto.
  - intros fd s keys Hfile Htext Hjson. split.
    + unfold _get_active_sessions, path_exists, open_json_load, read_text.
      munfold. fold sessions_file. rewrite Hfile. simpl.
      rewrite Hfile, Htext, Hjson. by destruct w.
    + intros n fdn sid Hmatch Hf Hid. eexists. split; [apply find_completed_eq|].
      rewrite elem_of_completed. split.
      * intros Hin (n' & fd' & sid' & Heq%path_join_inj & _ & _ & Hid' & Hnot).
        subst n'. simplify_eq. apply Hnot. by apply elem_of_list_to_set.
      * intros Hnotin. exists n, fdn, sid. split_and!; try done.
        by rewrite elem_of_list_to_set.
  - intros fd s Hfile Htext Hjson.
    unfold _get_active_sessions, path_exists, open_json_load, read_text.
    munfold. fold sessions_file. rewrite Hfile. simpl.
    rewrite Hfile, Htext, Hjson. by destruct w.
  - intros wa n fdn sid Hact Hmatch Hf Hid.
    pose proof (get_active_sessions_fs d w wa ∅ Hact) as Hfs.
    eexists. split; [apply find_completed_eq|].
    rewrite elem_of_completed. exists n, fdn, sid. rewrite Hfs.
    by split_and!.
Qed.

(** *** Session ids *)

Lemma substring_length (n : nat) (s : string) :
  (n ≤ String.length s)%nat → String.length (String.substring 0 n s) = n.
Proof.
  revert s. induction n as [|n IH]; intros s Hle.
  - by destruct s.
  - destruct s as [|a s]; simpl in *; [lia|]. rewrite IH; [done|lia].
Qed.

Lemma extract_session_id_spec (n : string) :
  _extract_session_id n
  = if decide ((36 ≤ String.length n)%nat ∧
               str_count "-" (String.substring 0 36 n) = 4%nat)
    then Some (String.substring 0 36 n) else None.
Proof.
  unfold _extract_session_id.
  destruct (decide (36 ≤ String.length n)%nat) as [Hlen|Hlen].
  - rewrite bool_decide_eq_true_2 by done.
    rewrite (bool_decide_eq_true_2 _ (substring_length 36 n Hlen)). simpl.
    destruct (decide (str_count "-" (String.substring 0 36 n) = 4%nat))
      as [Hcount|Hcount].
    + rewrite bool_decide_eq_true_2 by done. by rewrite decide_True.
    + rewrite bool_decide_eq_false_2 by done. rewrite decide_False; [done|].
      by intros [_ ?].
  - rewrite bool_decide_eq_false_2 by done. rewrite decide_False; [done|].
    by intros [? _].
Qed.

(** A file the scan found is in the list the loop runs over. *)
Lemma completed_split (d : path) (active : gset string) (wa : world)
    (n sid : string) (fd : file_data) :
  fnmatch_jsonl n = true → fs wa !! path_join d n = Some (File fd) →
  _extract_session_id n = Some sid → sid ∉ active →
  ∃ l1 l2,
    _find_completed_sessions d active wa
    = (Ok (l1 ++ path_join d n :: l2), wa).
Proof.
  intros Hmatch Hf Hid Hact. rewrite find_completed_eq.
  assert (Hin : path_join d n ∈
            filter (λ file, is_completed (fs wa) active file = true)
                   (glob_jsonl (fs wa) d)).
  { apply elem_of_completed. by exists n, fd, sid. }
  apply list_elem_of_split in Hin as (l1 & l2 & ->). eauto.
Qed.

(** C9: [_extract_session_id] answers the first 36 characters exactly when
    the name has at least 36 characters and exactly four of the first 36
    are hyphens, and nothing otherwise: what the other characters are is
    never looked at (a name made of [z]s passes).  Every regular file
    matching [*.jsonl*] whose name passes, and whose id is not active, is in
    the list [_find_completed_sessions] returns, and [_process_agent] makes
    its upload request when the file passes the size guard and reads as
    text. *)
Theorem session_id_check_is_length_and_hyphens :
  (∀ n, (36 ≤ String.length n)%nat →
        str_count "-" (String.substring 0 36 n) = 4%nat →
        _extract_session_id n = Some (String.substring 0 36 n)) ∧
  (∀ n sid, _extract_session_id n = Some sid →
            (36 ≤ String.length n)%nat ∧ sid = String.substring 0 36 n ∧
            str_count "-" sid = 4%nat) ∧
  _extract_session_id "zzzzzzzz-zzzz-zzzz-zzzz-zzzzzzzzzzzz.jsonl"
  = Some "zzzzzzzz-zzzz-zzzz-zzzz-zzzzzzzzzzzz" ∧
  (∀ agent_id d endpoint api_key w wa active n fd,
     _get_active_sessions d w = (Ok active, wa) →
     fnmatch_jsonl n = true →
     fs w !! path_join d n = Some (File fd) →
     (36 ≤ String.length n)%nat →
     str_count "-" (String.substring 0 36 n) = 4%nat →
     String.substring 0 36 n ∉ active →
     ∃ l1 l2 acc1 w1 r w',
       _find_completed_sessions d active wa
       = (Ok (l1 ++ path_join d n :: l2), wa) ∧
       for_each l1 (0, []) (upload_step agent_id d endpoint api_key)
                (loop_start agent_id (l1 ++ path_join d n :: l2) wa)
       = (Ok acc1, w1) ∧
       _process_agent agent_id d endpoint api_key w = (Ok r, w') ∧
       ∀ t, st_size fd ≤ MAX_TRANSCRIPT_BYTES → text fd = Some t →
         let rq := upload_request agent_id (String.substring 0 36 n) t
                                  endpoint api_key in
         EvPost rq (post_outcome (trace w1) rq) ∈ trace w').
Proof.
  split_and!.
  - intros n Hlen Hcount. rewrite extract_session_id_spec.
    by rewrite decide_True.
  - intros n sid. rewrite extract_session_id_spec.
    case_decide as Hok; [|done]. intros [= <-]. by destruct Hok.
  - by vm_compute.
  - intros agent_id d endpoint api_key w wa active n fd Hact Hmatch Hf Hlen
      Hcount Hnotin.
    assert (Hid : _extract_session_id n = Some (String.substring 0 36 n)).
    { rewrite extract_session_id_spec. by rewrite decide_True. }
    pose proof (get_active_sessions_fs d w wa active Hact) as Hfs.
    destruct (completed_split d active wa n (String.substring 0 36 n) fd Hmatch)
      as (l1 & l2 & Hfind); [by rewrite Hfs|done|done|].
    destruct (process_agent_turn agent_id d endpoint api_key w wa active l1 l2
                (path_join d n) Hact Hfind)
      as (n' & fd' & sid' & acc1 & w1 & uploaded & errors & w' & Hn & Hf' & Hid'
          & Hloop1 & Hrun & Hturn).
    apply path_join_inj in Hn as <-. simplify_eq.
    exists l1, l2, acc1, w1, (uploaded, errors), w'. split_and!; try done.
    intros t Hsize Htext rq.
    by destruct (Hturn t Hsize Htext) as [Hpost _].
Qed.

End session_upload.

(** ** The sample deployment *)

(** C2 (what the code does): a file matching [*.jsonl*] whose session id is
    malformed never reaches the upload loop, because
    [_find_completed_sessions] already drops it; so the branch of the loop
    that would report ["Invalid session filename"] is never taken.  On the
    directory with the two badly named files the job returns no error at
    all, and leaves both files where they were. *)
Theorem malformed_names_are_dropped_silently :
  (∀ (m : gmap path node) (d : path) (active : gset string) (n : string),
     _extract_session_id n = None →
     path_join d n ∉
       filter (λ file, is_completed m active file = true) (glob_jsonl m d)) ∧
  _extract_session_id "short.jsonl" = None ∧
  _extract_session_id "33333333-3333-3333-3333333333333333.jsonl" = None ∧
  run (H := sample_endpoint 200) (sample_job {[ "agents" := ["a1"] ]})
      "https://nexus" "key" (World malformed_fs 0 [])
  = (Ok (JobResult.Make "upload" true "Uploaded 0 sessions" 0 []),
     World malformed_fs 0 [EvLog DEBUG "No completed sessions for a1"]).
Proof.
  split_and!.
  - intros m d active n Hid Hin.
    apply elem_of_completed in Hin as (n' & fd & sid & Heq%path_join_inj & _ & _ & Hid' & _).
    subst n'. by rewrite Hid in Hid'.
  - vm_compute. reflexivity.
  - vm_compute. reflexivity.
  - vm_compute. reflexivity.
Qed.

(** The job with no option at all, in the sample world. *)
Lemma run_without_agents_is_noop_witness :
  Job.config (sample_job ∅) !! "agents" = None ∧
  run (H := sample_endpoint 200) (sample_job ∅) "https://nexus" "key"
      sample_world
  = (Ok (JobResult.Make "upload" true "No agents configured" 0 []),
     sample_world).
Proof.
  assert (Hnone : Job.config (sample_job ∅) !! "agents" = None)
    by reflexivity.
  split; [exact Hnone|].
  apply (run_without_agents_is_noop (H := sample_endpoint 200) (sample_job ∅)
           "https://nexus" "key" (or_introl Hnone)).
Defined.

(** A transcript of exactly 10,485,760 bytes, and the endpoint answering
    200. *)
Lemma size_guard_boundary_witness :
  let boundary := FileData 10485760 (Some "hello") in
  let w := World (sample_fs boundary) 0 [] in
  let rq := upload_request "a1" "22222222-2222-2222-2222-222222222222" "hello"
                           "https://nexus" "key" in
  fs w !! path_join sample_dir sample_session = Some (File boundary) ∧
  _extract_session_id sample_session
  = Some "22222222-2222-2222-2222-222222222222" ∧
  ∃ success rest,
    _upload_session (H := sample_endpoint 200) "a1"
      "22222222-2222-2222-2222-222222222222"
      (path_join sample_dir sample_session) "https://nexus" "key" w
    = (Ok success,
       World (fs w) (clock w)
             (trace w ++ EvPost rq (Response 200 "server error") :: rest)).
Proof.
  intros boundary w rq.
  assert (Hf : fs w !! path_join sample_dir sample_session
               = Some (File boundary)) by (vm_compute; reflexivity).
  assert (Hid : _extract_session_id sample_session
                = Some "22222222-2222-2222-2222-222222222222")
    by (vm_compute; reflexivity).
  split; [exact Hf|]. split; [exact Hid|].
  destruct (size_guard_boundary (H := sample_endpoint 200) "a1" sample_dir
              "https://nexus" "key" sample_session
              "22222222-2222-2222-2222-222222222222" boundary (0, []) w Hf Hid)
    as (_ & Hsmall & _).
  apply (Hsmall ltac:(vm_compute; discriminate) "hello" eq_refl).
Defined.



(** * Further properties *)

Section session_upload_more.
Context `{Environment}.

(** *** Every candidate is counted or reported *)

(** One turn of the upload loop, whatever the file and the world, either
    adds one to the count or appends one error, and makes at most one
    request. *)
Lemma upload_step_one_outcome (agent_id : string) (d : path)
    (endpoint api_key : string) (f : path) (acc : Z * list string) (w : world) :
  ∃ acc' m' evs,
    upload_step agent_id d endpoint api_key f acc w
    = (Ok acc', World m' (clock w) (trace w ++ evs)) ∧
    (acc' = (acc.1 + 1, acc.2) ∨ ∃ e, acc' = (acc.1, acc.2 ++ [e])) ∧
    (count_posts evs ≤ 1)%nat.
Proof.
  destruct acc as [u errs]. unfold upload_step. simpl.
  destruct (_extract_session_id (path_name f)) as [sid|].
  2:{ eexists _, (fs w), []. rewrite app_nil_r. destruct w. simpl.
      split; [done|]. split; [eauto|]. change (count_posts []) with 0%nat. lia. }
  destruct (upload_session_events agent_id sid f endpoint api_key w)
    as (r & evs1 & Hup & Hm1 & Hp1 & Hap1 & Hok1).
  unfold try_except, bind at 1. rewrite Hup.
  destruct r as [[|]|e].
  - set (w1 := World (fs w) (clock w) (trace w ++ evs1)).
    destruct (archive_session_events f d w1)
      as (r2 & m2 & evs2 & Har & Hp2 & Ha2 & Hm2 & Hfa2).
    unfold bind at 1. rewrite Har. simpl in *.
    destruct r2 as [[]|e]; munfold; simpl.
    + eexists _, m2, (evs1 ++ evs2 ++ [_]).
      rewrite <- !app_assoc. split; [done|]. counts. split; [by left|lia].
    + eexists _, m2, (evs1 ++ evs2 ++ [_]).
      rewrite <- !app_assoc. split; [done|]. counts. split; [eauto|lia].
  - munfold. simpl. eexists _, (fs w), evs1. split; [done|]. eauto.
  - munfold. simpl. eexists _, (fs w), (evs1 ++ [_]).
    rewrite <- !app_assoc. split; [done|]. counts. split; [eauto|lia].
Qed.

Lemma upload_loop_outcomes (agent_id : string) (d : path)
    (endpoint api_key : string) (l : list path) :
  ∀ (acc : Z * list string) (w : world),
    ∃ acc' m' evs,
      for_each l acc (upload_step agent_id d endpoint api_key) w
      = (Ok acc', World m' (clock w) (trace w ++ evs)) ∧
      acc.1 ≤ acc'.1 ∧
      acc'.1 + Z.of_nat (length acc'.2)
      = acc.1 + Z.of_nat (length acc.2) + Z.of_nat (length l) ∧
      (count_posts evs ≤ length l)%nat.
Proof.
  induction l as [|f l IH]; intros acc w.
  - exists acc, (fs w), []. rewrite app_nil_r. destruct w. simpl.
    split; [done|]. change (count_posts []) with 0%nat. lia.
  - destruct (upload_step_one_outcome agent_id d endpoint api_key f acc w)
      as (acc1 & m1 & evs1 & Hstep & Hone & Hp1).
    destruct (IH acc1 (World m1 (clock w) (trace w ++ evs1)))
      as (acc2 & m2 & evs2 & Hloop & Hle & Hsum & Hp2).
    exists acc2, m2, (evs1 ++ evs2). simpl. unfold bind. rewrite Hstep, Hloop.
    simpl. rewrite <- app_assoc. split; [done|]. counts.
    destruct Hone as [-> | [e ->]]; simpl in *;
      rewrite ?length_app in *; simpl in *; lia.
Qed.

(** X1: [_process_agent] always returns, and accounts for every file its
    scan found: each candidate either adds one to the upload count or adds
    one entry to the error list, so the two add up to the number of
    candidates; and it sends at most one request per candidate. *)
Theorem every_candidate_is_counted_or_reported (agent_id : string) (d : path)
    (endpoint api_key : string) (w : world) :
  ∃ active wa completed uploaded errors m' evs,
    _get_active_sessions d w = (Ok active, wa) ∧
    _find_completed_sessions d active wa = (Ok completed, wa) ∧
    _process_agent agent_id d endpoint api_key w
    = (Ok (uploaded, errors), World m' (clock w) (trace w ++ evs)) ∧
    0 ≤ uploaded ∧
    uploaded + Z.of_nat (length errors) = Z.of_nat (length completed) ∧
    (count_posts evs ≤ length completed)%nat.
Proof.
  destruct (get_active_sessions_events d w) as (active & evs0 & Hact & Hevs0).
  set (wa := World (fs w) (clock w) (trace w ++ evs0)) in *.
  set (completed := filter (λ file, is_completed (fs wa) active file = true)
                           (glob_jsonl (fs wa) d)).
  assert (Hfind : _find_completed_sessions d active wa = (Ok completed, wa))
    by apply find_completed_eq.
  assert (Hp0 : count_posts evs0 = 0%nat)
    by (by destruct Hevs0 as [-> | [msg ->]]).
  unfold _process_agent. unfold bind at 1. rewrite Hact.
  unfold bind at 1. rewrite Hfind.
  destruct completed as [|f l] eqn:Hc.
  - exists active, wa, [], 0, [], (fs w), (evs0 ++ [EvLog DEBUG ("No completed sessions for " +:+ agent_id)]).
    munfold. simpl. rewrite <- app_assoc. split_and!; try done. counts. rewrite Hp0. lia.
  - unfold bind at 1, log, emit. simpl.
    set (w1 := World _ _ _).
    change (bind _ _ w1) with
      (for_each (f :: l) (0, []) (upload_step agent_id d endpoint api_key) w1).
    destruct (upload_loop_outcomes agent_id d endpoint api_key (f :: l) (0, []) w1)
      as ([uploaded errors] & m' & evs & Hloop & Hle & Hsum & Hp).
    rewrite Hloop. subst w1. simpl in Hle, Hsum. simpl.
    exists active, wa, (f :: l), uploaded, errors, m',
      (evs0 ++ [EvLog INFO ("Found " +:+ pretty (S (length l))
                 +:+ " completed sessions for " +:+ agent_id)] ++ evs).
    rewrite <- !app_assoc. split_and!; try done; try lia. counts. rewrite Hp0. lia.
Qed.

End session_upload_more.

Section run_events.
Context `{Environment}.

(** *** What a run may leave in the trace *)

Lemma run_event_weaken (endpoint api_key : string) (l1 l2 : list string)
    (ev : event) :
  (∀ a, a ∈ l1 → a ∈ l2) →
  run_event endpoint api_key l1 ev → run_event endpoint api_key l2 ev.
Proof.
  intros Hincl. destruct ev; simpl; try done.
  intros (? & ? & ? & ? & ?). split_and!; auto.
Qed.

Lemma run_event_log (endpoint api_key : string) (l : list string)
    (lvl : level) (msg : string) :
  run_event endpoint api_key l (EvLog lvl msg).
Proof. done. Qed.

Lemma upload_session_run_events (agent_id sid : string) (f : path)
    (endpoint api_key : string) (w : world) :
  String.length sid = 36%nat → str_count "-" sid = 4%nat →
  ∃ r evs,
    _upload_session agent_id sid f endpoint api_key w
    = (r, World (fs w) (clock w) (trace w ++ evs)) ∧
    Forall (run_event endpoint api_key [agent_id]) evs.
Proof.
  intros Hlen Hcount. destruct w as [m c tr].
  unfold _upload_session, stat_st_size, read_text, requests_post.
  munfold. simpl.
  repeat (case_match; simplify_eq/=).
  all: rewrite <- ?app_assoc; simpl.
  all: first [ eexists _, []; split; [by rewrite app_nil_r|]
             | eexists _, _; split; [reflexivity|] ].
  all: repeat (apply Forall_cons; split); try apply Forall_nil; simpl; try done.
  all: split_and!; try done; apply list_elem_of_here.
Qed.

Lemma archive_session_run_events (f d : path) (endpoint api_key : string)
    (l : list string) (w : world) :
  ∃ r m' evs,
    _archive_session f d w = (r, World m' (clock w) (trace w ++ evs)) ∧
    Forall (run_event endpoint api_key l) evs.
Proof.
  destruct w as [m c tr].
  unfold _archive_session, mkdir_exist_ok, shutil_move, os_rename.
  munfold. simpl.
  repeat (case_match; simplify_eq/=).
  all: rewrite <- ?app_assoc; simpl.
  all: first [ eexists _, _, []; split; [by rewrite app_nil_r|]
             | eexists _, _, _; split; [reflexivity|] ].
  all: repeat (apply Forall_cons; split); try apply Forall_nil; done.
Qed.

Lemma upload_step_run_events (agent_id : string) (d : path)
    (endpoint api_key : string) (f : path) (acc : Z * list string) (w : world) :
  ∃ acc' m' evs,
    upload_step agent_id d endpoint api_key f acc w
    = (Ok acc', World m' (clock w) (trace w ++ evs)) ∧
    Forall (run_event endpoint api_key [agent_id]) evs.
Proof.
  unfold upload_step.
  destruct (_extract_session_id (path_name f)) as [sid|] eqn:Hid.
  2:{ eexists _, (fs w), []. rewrite app_nil_r. destruct w. by split. }
  rewrite extract_session_id_spec in Hid. case_decide as Hok; [|done].
  destruct Hok as [Hlen Hcount]. simplify_eq.
  destruct (upload_session_run_events agent_id
              (String.substring 0 36 (path_name f)) f endpoint api_key w
              (substring_length 36 _ Hlen) Hcount)
    as (r & evs1 & Hup & Hev1).
  unfold try_except, bind at 1. rewrite Hup.
  destruct r as [[|]|e].
  - destruct (archive_session_run_events f d endpoint api_key [agent_id]
                (World (fs w) (clock w) (trace w ++ evs1)))
      as (r2 & m2 & evs2 & Har & Hev2).
    unfold bind at 1. rewrite Har. simpl in *.
    destruct r2 as [[]|e]; munfold; simpl.
    + eexists _, m2, (evs1 ++ evs2 ++ [_]).
      rewrite <- !app_assoc. split; [done|].
      rewrite !Forall_app. split_and!; try done. by repeat constructor.
    + eexists _, m2, (evs1 ++ evs2 ++ [_]).
      rewrite <- !app_assoc. split; [done|].
      rewrite !Forall_app. split_and!; try done. by repeat constructor.
  - munfold. simpl. by eexists _, (fs w), evs1.
  - munfold. simpl. eexists _, (fs w), (evs1 ++ [_]).
    rewrite <- !app_assoc. split; [done|].
    rewrite !Forall_app. split_and!; try done. by repeat constructor.
Qed.

(** A loop whose every turn returns and adds only events of some kind does
    so as a whole. *)
Lemma for_each_events {A S} (P : event → Prop) (Q : A → Prop)
    (body : A → S → M S) :
  (∀ x s w, Q x →
     ∃ s' m' evs,
       body x s w = (Ok s', World m' (clock w) (trace w ++ evs)) ∧
       Forall P evs) →
  ∀ l s w, Forall Q l →
    ∃ s' m' evs,
      for_each l s body w = (Ok s', World m' (clock w) (trace w ++ evs)) ∧
      Forall P evs.
Proof.
  intros Hbody l. induction l as [|x l IH]; intros s w HQ.
  - exists s, (fs w), []. rewrite app_nil_r. destruct w. by split.
  - apply Forall_cons in HQ as [Hx HQ].
    destruct (Hbody x s w Hx) as (s1 & m1 & evs1 & Hb & Hp1).
    destruct (IH s1 (World m1 (clock w) (trace w ++ evs1)) HQ)
      as (s2 & m2 & evs2 & Hl & Hp2).
    exists s2, m2, (evs1 ++ evs2). simpl. unfold bind. rewrite Hb, Hl. simpl.
    rewrite <- app_assoc. split; [done|]. by apply Forall_app.
Qed.

Lemma process_agent_run_events (agent_id : string) (d : path)
    (endpoint api_key : string) (w : world) :
  ∃ r m' evs,
    _process_agent agent_id d endpoint api_key w
    = (Ok r, World m' (clock w) (trace w ++ evs)) ∧
    Forall (run_event endpoint api_key [agent_id]) evs.
Proof.
  unfold _process_agent.
  destruct (get_active_sessions_events d w) as (active & evs0 & Hact & Hevs0).
  unfold bind at 1. rewrite Hact.
  unfold bind at 1. rewrite find_completed_eq. simpl.
  assert (Hp0 : Forall (run_event endpoint api_key [agent_id]) evs0).
  { destruct Hevs0 as [->|[msg ->]]; by repeat constructor. }
  destruct (filter _ (glob_jsonl (fs w) d)) as [|f l].
  - munfold. simpl. eexists (0, []), _, (evs0 ++ [_]).
    rewrite <- app_assoc. split; [done|].
    rewrite Forall_app. split; [done|]. by repeat constructor.
  - unfold bind at 1, log, emit. simpl.
    set (w1 := World _ _ _).
    change (bind _ _ w1) with
      (for_each (f :: l) (0, []) (upload_step agent_id d endpoint api_key) w1).
    destruct (for_each_events (run_event endpoint api_key [agent_id])
                (λ _, True) (upload_step agent_id d endpoint api_key))
      with (l := f :: l) (s := (0, @nil string)) (w := w1)
      as (acc' & m' & evs & Hloop & Hp).
    { intros x s w' _. apply upload_step_run_events. }
    { by apply Forall_forall. }
    rewrite Hloop. subst w1. simpl.
    eexists acc', m', (evs0 ++ [_] ++ evs).
    rewrite <- !app_assoc. split; [done|].
    rewrite !Forall_app. split_and!; try done. by repeat constructor.
Qed.

Lemma agent_step_run_events (self : Job.t) (endpoint api_key agent_id : string)
    (acc : Z * list string) (w : world) :
  ∃ acc' m' evs,
    agent_step self endpoint api_key agent_id acc w
    = (Ok acc', World m' (clock w) (trace w ++ evs)) ∧
    Forall (run_event endpoint api_key [agent_id]) evs.
Proof.
  unfold agent_step. destruct (Job.agents self !! agent_id) as [cfg|].
  2:{ eexists _, (fs w), []. rewrite app_nil_r. destruct w. by split. }
  unfold path_exists. munfold. simpl.
  destruct (bool_decide (is_Some (fs w !! AgentConfig.sessions_dir cfg))); simpl.
  - destruct (process_agent_run_events agent_id (AgentConfig.sessions_dir cfg)
                endpoint api_key w) as (r & m' & evs & Heq & Hp).
    rewrite Heq. by eexists _, m', evs.
  - eexists _, _, [_]. split; [done|]. by repeat constructor.
Qed.

(** A run returns, keeps the clock, and leaves only events of a run. *)
Lemma run_events (self : Job.t)
    (endpoint api_key : string) (w : world) :
  ∃ r m' evs,
    run self endpoint api_key w
    = (Ok r, World m' (clock w) (trace w ++ evs)) ∧
    Forall (run_event endpoint api_key
                      (default [] (Job.config self !! "agents"))) evs.
Proof.
  unfold run. destruct (default [] (Job.config self !! "agents")) as [|a l] eqn:Hl.
  - eexists _, (fs w), []. rewrite app_nil_r. destruct w. by split.
  - destruct (for_each_events (run_event endpoint api_key (a :: l))
                (λ x, x ∈ a :: l) (agent_step self endpoint api_key))
      with (l := a :: l) (s := (0, @nil string)) (w := w)
      as (acc' & m' & evs & Hloop & Hp).
    { intros x s w' Hx.
      destruct (agent_step_run_events self endpoint api_key x s w')
        as (s' & m' & evs & Heq & Hp).
      exists s', m', evs. split; [done|].
      eapply Forall_impl; [exact Hp|]. intros ev.
      apply run_event_weaken. intros a' ->%list_elem_of_singleton. done. }
    { by apply Forall_forall. }
    unfold bind. rewrite Hloop. munfold. simpl. by eexists _, m', evs.
Qed.

(** X2: whether [run] returns or raises, and however long it takes, what
    it adds to the trace obeys this: every request it sends goes to
    [<endpoint>/sessions] with the given key, for one of the agents of its
    [agents] option, with a session id of 36 characters and four hyphens;
    and it never calls [mark_run]. *)
Theorem run_only_uploads_to_the_endpoint (self : Job.t)
    (endpoint api_key : string) (w : world) :
  ∃ evs,
    trace (run self endpoint api_key w).2 = trace w ++ evs ∧
    (∀ rq o,
       EvPost rq o ∈ evs →
       url rq = endpoint +:+ "/sessions" ∧ code rq = api_key ∧
       agentId rq ∈ default [] (Job.config self !! "agents") ∧
       String.length (sessionId rq) = 36%nat ∧
       str_count "-" (sessionId rq) = 4%nat) ∧
    (∀ job_id, EvMarkRun job_id ∉ evs).
Proof.
  destruct (run_events self endpoint api_key w) as (r & m' & evs & Hrun & Hevs).
  exists evs. rewrite Hrun. split; [reflexivity|].
  rewrite Forall_forall in Hevs. split.
  - intros rq o Hin. exact (Hevs _ Hin).
  - intros job_id Hin. exact (Hevs _ Hin).
Qed.

End run_events.

Section second_scan.
Context `{Environment}.

(** *** What a second scan finds *)

Lemma archive_session_moved (d : path) (n : string) (fd : file_data)
    (w w' : world) :
  fs w !! path_join d n = Some (File fd) →
  n ≠ "archive" →
  _archive_session (path_join d n) d w = (Ok tt, w') →
  fs w' !! path_join d n = None.
Proof.
  intros Hf Hn.
  destruct (archive_paths_distinct d n n Hn) as (HFA & HFD & HFE & HDA & HEA & HDE).
  unfold _archive_session. rewrite path_name_join.
  fold (archive_dir d). fold (archive_dest d n).
  unfold shutil_move. rewrite path_name_join. fold (archive_nested d n).
  destruct w as [m c tr]. simpl in *.
  generalize dependent (archive_nested d n). intros E HFE HEA HDE.
  generalize dependent (archive_dest d n). intros D HFD HDA HDE.
  generalize dependent (archive_dir d). intros A HFA HDA HEA.
  generalize dependent (path_join d n). intros F Hf HFA HFD HFE.
  unfold mkdir_exist_ok, os_rename. munfold. simpl.
  repeat (case_match; simplify_map_eq/=); intros; simplify_map_eq/=; done.
Qed.

(** A turn that counted its candidate has moved it away. *)
Lemma upload_step_counted_gone (agent_id : string) (d : path)
    (endpoint api_key : string) (n sid : string) (fd : file_data)
    (acc acc' : Z * list string) (w w' : world) :
  fs w !! path_join d n = Some (File fd) →
  _extract_session_id n = Some sid →
  upload_step agent_id d endpoint api_key (path_join d n) acc w
  = (Ok acc', w') →
  acc'.1 ≠ acc.1 →
  fs w' !! path_join d n = None.
Proof.
  intros Hf Hid. pose proof (extract_session_id_not_archive n sid Hid) as Hn.
  unfold upload_step. rewrite path_name_join, Hid.
  destruct (upload_session_events agent_id sid (path_join d n) endpoint api_key w)
    as (r & evs1 & Hup & _).
  unfold try_except, bind at 1. rewrite Hup.
  destruct r as [[|]|e]; [|munfold; intros; by simplify_eq/=..].
  destruct (_archive_session (path_join d n) d
              (World (fs w) (clock w) (trace w ++ evs1)))
    as [[[]|e] w2] eqn:Har; unfold bind at 1; rewrite Har;
    [|munfold; intros; by simplify_eq/=].
  apply (archive_session_moved d n fd) in Har; [|done..].
  munfold. simpl. intros [= <- <-] _. done.
Qed.

(** After the loop every candidate is either gone or as it was. *)
Lemma upload_loop_fates (agent_id : string) (d : path)
    (endpoint api_key : string) (l : list path) (acc acc' : Z * list string)
    (w w' : world) :
  NoDup l → Forall (candidate d w) l →
  for_each l acc (upload_step agent_id d endpoint api_key) w = (Ok acc', w') →
  ∀ f, f ∈ l → fs w' !! f = None ∨ fs w' !! f = fs w !! f.
Proof.
  intros Hnd Hcand Hloop f Hin.
  assert (Hc : candidate d w f) by (by apply (proj1 (Forall_forall _ _) Hcand)).
  destruct Hc as (n & fd0 & sid0 & -> & _ & _).
  apply list_elem_of_split in Hin as (l1 & l2 & ->).
  destruct (upload_loop_turn agent_id d endpoint api_key l1 l2 n acc w Hnd Hcand)
    as (fd & sid & acc1 & w1 & acc2 & w2 & acc'' & w'' & Hf & Hid & Hloop1
        & Hstep & Hloop2 & Hall & Hf1 & _ & _ & Hf' & _).
  rewrite Hloop in Hall. simplify_eq.
  rewrite Hf', Hf.
  destruct (decide (acc2.1 = acc1.1)) as [Hsame|Hcounted].
  - right.
    destruct (upload_step_candidate agent_id d endpoint api_key n sid fd acc1 w1
                Hf1 Hid)
      as (acc2' & w2' & Hstep' & _ & _ & _ & _ & Hplace & _).
    rewrite Hstep in Hstep'. simplify_eq. by destruct (Hplace Hsame).
  - left. by eapply upload_step_counted_gone.
Qed.

(** The active set depends on the world through [sessions.json] alone. *)
Lemma get_active_sessions_value (d : path) (w : world) :
  (_get_active_sessions d w).1
  = Ok match fs w !! path_join d "sessions.json" with
       | Some (File fd) =>
           match text fd with
           | Some s =>
               match json_loads s with
               | inl (JObject keys) => list_to_set keys
               | _ => ∅
               end
           | None => ∅
           end
       | _ => ∅
       end.
Proof.
  unfold _get_active_sessions, path_exists, open_json_load, read_text.
  munfold. simpl.
  destruct (fs w !! path_join d "sessions.json") as [[fd|]|] eqn:Hsf; simpl;
    rewrite ?Hsf; try done.
  destruct (text fd) as [s|]; [|done].
  by destruct (json_loads s) as [[keys|]|msg].
Qed.

Lemma get_active_sessions_same (d : path) (w1 w2 : world) :
  fs w1 !! path_join d "sessions.json" = fs w2 !! path_join d "sessions.json" →
  (_get_active_sessions d w1).1 = (_get_active_sessions d w2).1.
Proof. intros Heq. by rewrite !get_active_sessions_value, Heq. Qed.

(** X3: scanning the directory again after [_process_agent] finds the same
    active sessions, and as candidates exactly the candidates of the first
    scan that are still where they were: [sessions.json] is untouched, every
    candidate is either gone or unchanged, and nothing new shows up. *)
Theorem second_scan_finds_only_what_stayed (agent_id : string) (d : path)
    (endpoint api_key : string) (w : world) :
  ∃ active wa completed r w' wa' completed',
    _get_active_sessions d w = (Ok active, wa) ∧
    _find_completed_sessions d active wa = (Ok completed, wa) ∧
    _process_agent agent_id d endpoint api_key w = (Ok r, w') ∧
    _get_active_sessions d w' = (Ok active, wa') ∧
    _find_completed_sessions d active wa' = (Ok completed', wa') ∧
    fs w' !! path_join d "sessions.json" = fs w !! path_join d "sessions.json" ∧
    (∀ f, f ∈ completed → fs w' !! f = None ∨ fs w' !! f = fs w !! f) ∧
    (∀ f, f ∈ completed' ↔ f ∈ completed ∧ fs w' !! f = fs w !! f).
Proof.
  destruct (get_active_sessions_events d w) as (active & evs0 & Hact & _).
  set (wa := World (fs w) (clock w) (trace w ++ evs0)) in *.
  set (completed := filter (λ file, is_completed (fs w) active file = true)
                           (glob_jsonl (fs w) d)).
  assert (Hfind : _find_completed_sessions d active wa = (Ok completed, wa))
    by apply find_completed_eq.
  destruct (completed_candidates d active wa completed Hfind) as [Hnd Hcand].
  (* the scan after the run, for any world with the files the run left *)
  assert (Hagain : ∀ w', fs w' !! path_join d "sessions.json"
                         = fs w !! path_join d "sessions.json" →
            ∃ wa', _get_active_sessions d w' = (Ok active, wa') ∧
                   fs wa' = fs w').
  { intros w' Hsame.
    destruct (get_active_sessions_events d w') as (active' & evs' & Hact' & _).
    pose proof (get_active_sessions_same d w' w Hsame) as Heq.
    rewrite Hact, Hact' in Heq. simpl in Heq. injection Heq as ->. eauto. }
  destruct (decide (completed = [])) as [Hnil|Hne].
  { set (w' := World (fs w) (clock w)
             (trace wa ++ [EvLog DEBUG ("No completed sessions for " +:+ agent_id)])).
    destruct (Hagain w' eq_refl) as (wa' & Hact' & Hfs').
    exists active, wa, completed, (0, []), w', wa', completed.
    split_and!; try done.
    - unfold _process_agent. unfold bind at 1. rewrite Hact.
      unfold bind at 1. rewrite Hfind, Hnil. done.
    - rewrite find_completed_eq, Hfs'. done.
    - intros f Hf. by right.
    - intros f. split; [by intros ?|by intros [? _]]. }
  set (w0 := loop_start agent_id completed wa).
  specialize (Hcand w0 eq_refl).
  destruct (upload_loop_frame agent_id d endpoint api_key completed (0, []) w0
              Hnd Hcand) as (r & w' & Hloop & Hframe & _).
  pose proof (upload_loop_fates agent_id d endpoint api_key completed (0, []) r
                w0 w' Hnd Hcand Hloop) as Hfates.
  change (fs w0) with (fs w) in *.
  (* an entry of the directory that is no candidate is left alone *)
  assert (Hother : ∀ n, n ≠ "archive" → path_join d n ∉ completed →
            fs w' !! path_join d n = fs w !! path_join d n).
  { intros n Hn Hnotin.
    destruct (archive_paths_distinct d n n Hn) as (HFA & _).
    apply Hframe; [done|]. intros n' Hin'.
    destruct (archive_paths_distinct d n n' Hn) as (_ & ? & ? & _).
    split_and!; try done. intros Heq. by rewrite Heq in Hnotin. }
  assert (Hjson : fs w' !! path_join d "sessions.json"
                  = fs w !! path_join d "sessions.json").
  { apply Hother; [done|]. intros Hin.
    apply (proj1 (Forall_forall _ _) Hcand) in Hin
      as (n & fd & sid & Heq%path_join_inj & _ & Hid).
    subst n. by vm_compute in Hid. }
  destruct (Hagain w' Hjson) as (wa' & Hact' & Hfs').
  exists active, wa, completed, r, w', wa',
    (filter (λ file, is_completed (fs w') active file = true)
            (glob_jsonl (fs w') d)).
  split_and!; try done.
  - by rewrite (process_agent_loop agent_id d endpoint api_key w wa active
                  completed Hact Hfind Hne).
  - by rewrite find_completed_eq, Hfs'.
  - intros f. rewrite elem_of_completed. split.
    + intros (n & fd & sid & -> & Hmatch & Hf & Hid & Hnotact).
      destruct (decide (path_join d n ∈ completed)) as [Hin|Hnotin].
      * split; [done|]. destruct (Hfates _ Hin) as [Hgone|Hsame]; [|done].
        by rewrite Hgone in Hf.
      * pose proof (extract_session_id_not_archive n sid Hid) as Hn.
        pose proof (Hother n Hn Hnotin) as Hsame. split; [|done].
        apply elem_of_completed. exists n, fd, sid. by rewrite <- Hsame.
    + intros [Hin Hsame].
      apply elem_of_completed in Hin as (n & fd & sid & -> & ? & Hf & ? & ?).
      exists n, fd, sid. by rewrite Hsame.
Qed.

End second_scan.

Section agents_and_local_failures.
Context `{Environment}.

(** *** Agents the job cannot process *)

(** X4: an agent of the [agents] option that the agent table does not hold
    does not stop the run: [run] returns, the error list holds
    ["Agent not found in config: <id>"], and the result is then a success
    only if some other agent's session was uploaded. *)
Theorem unknown_agent_is_reported (self : Job.t) (endpoint api_key : string)
    (w : world) (agent_id : string) :
  agent_id ∈ default [] (Job.config self !! "agents") →
  Job.agents self !! agent_id = None →
  ∃ res w',
    run self endpoint api_key w = (Ok res, w') ∧
    ("Agent not found in config: " +:+ agent_id) ∈ JobResult.errors res ∧
    (JobResult.success res = true ↔ 0 < JobResult.items_processed res).
Proof.
  intros Hin Hnone.
  apply list_elem_of_split in Hin as (as1 & as2 & Hl).
  destruct (for_each_tallied (λ _, True) (agent_step self endpoint api_key))
    with (l := as1) (acc := (0, @nil string)) (w := w)
    as (acc1 & m1 & evs1 & Hloop1 & _).
  { intros x acc w1 _. apply agent_step_tallied. }
  { by apply Forall_forall. }
  set (w1 := World m1 (clock w) (trace w ++ evs1)) in *.
  set (msg := "Agent not found in config: " +:+ agent_id).
  assert (Hstep : agent_step self endpoint api_key agent_id acc1 w1
                  = (Ok (acc1.1, acc1.2 ++ [msg]), w1)).
  { unfold agent_step. by rewrite Hnone. }
  destruct (for_each_tallied (λ _, True) (agent_step self endpoint api_key))
    with (l := as2) (acc := (acc1.1, acc1.2 ++ [msg])) (w := w1)
    as (acc2 & m2 & evs2 & Hloop2 & _ & _ & _ & [new Hnew] & _).
  { intros x acc w2 _. apply agent_step_tallied. }
  { by apply Forall_forall. }
  simpl in Hnew.
  unfold run. rewrite Hl.
  destruct (as1 ++ agent_id :: as2) as [|a0 l0] eqn:Heq; [by destruct as1|].
  rewrite <- Heq. unfold bind at 1. rewrite for_each_app, Hloop1. simpl.
  unfold bind at 1. rewrite Hstep, Hloop2. munfold. simpl.
  eexists _, _. split; [done|]. simpl.
  assert (Hmsg : msg ∈ acc2.2).
  { rewrite Hnew, !elem_of_app, list_elem_of_singleton. eauto. }
  split; [done|].
  rewrite orb_true_iff, !bool_decide_eq_true. split; [|by right].
  intros [Hlen|Hpos]; [|done]. apply length_zero_iff_nil in Hlen.
  rewrite Hlen in Hmsg. by apply elem_of_nil in Hmsg.
Qed.

Lemma agent_loop_missing_dirs (self : Job.t) (endpoint api_key : string)
    (l : list string) :
  ∀ (acc : Z * list string) (w : world),
    Forall (λ a, ∃ cfg, Job.agents self !! a = Some cfg ∧
                        fs w !! AgentConfig.sessions_dir cfg = None) l →
    for_each l acc (agent_step self endpoint api_key) w
    = (Ok acc,
       World (fs w) (clock w) (trace w ++ (missing_dir_warning self <$> l))).
Proof.
  induction l as [|a l IH]; intros acc w Hall.
  - simpl. rewrite app_nil_r. by destruct w.
  - apply Forall_cons in Hall as [(cfg & Hcfg & Hdir) Hall].
    simpl. unfold bind, agent_step at 1. rewrite Hcfg.
    unfold path_exists. munfold. simpl. rewrite Hdir. simpl.
    rewrite IH; [|done]. simpl. rewrite <- app_assoc. simpl.
    unfold missing_dir_warning at 2. rewrite Hcfg. by destruct acc.
Qed.

(** X5: when every listed agent is known but none of their sessions
    directories exists, [run] logs one warning per agent, in order, touches
    no file, sends nothing, and returns a success with no error and the
    message ["Uploaded 0 sessions"]. *)
Theorem missing_directories_are_no_error (self : Job.t)
    (endpoint api_key : string) (w : world) (agent_ids : list string) :
  Job.config self !! "agents" = Some agent_ids →
  agent_ids ≠ [] →
  Forall (λ a, ∃ cfg, Job.agents self !! a = Some cfg ∧
                      fs w !! AgentConfig.sessions_dir cfg = None) agent_ids →
  run self endpoint api_key w
  = (Ok (JobResult.Make (Job.id self) true "Uploaded 0 sessions" 0 []),
     World (fs w) (clock w)
           (trace w ++ (missing_dir_warning self <$> agent_ids))).
Proof.
  intros Hcfg Hne Hall. unfold run. rewrite Hcfg. simpl.
  destruct agent_ids as [|a l]; [done|].
  unfold bind. rewrite (agent_loop_missing_dirs _ _ _ _ _ _ Hall). done.
Qed.

(** *** Failures next to an upload *)

(** X6: when the endpoint accepts a transcript but [archive] is a regular
    file, the turn of the upload loop has sent the transcript and then fails
    to archive it: [mkdir] raises, the handler of the loop reports
    ["Error uploading <id>: ..."], the count stays, and the file system is
    unchanged, so the file is a candidate again on the next run. *)
Theorem blocked_archive_is_reported_after_upload (agent_id : string)
    (d : path) (endpoint api_key : string) (n sid t : string)
    (fd x : file_data) (acc : Z * list string) (w : world) :
  let rq := upload_request agent_id sid t endpoint api_key in
  let o := post_outcome (trace w) rq in
  fs w !! path_join d n = Some (File fd) →
  _extract_session_id n = Some sid →
  st_size fd ≤ MAX_TRANSCRIPT_BYTES →
  text fd = Some t →
  accepted o = true →
  fs w !! archive_dir d = Some (File x) →
  upload_step agent_id d endpoint api_key (path_join d n) acc w
  = (Ok (acc.1,
         acc.2 ++ ["Error uploading " +:+ sid +:+ ": "
                   +:+ str_exn (FileExistsError (archive_dir d))]),
     World (fs w) (clock w)
           (trace w ++ EvPost rq o :: response_log sid o
            ++ [EvLog ERROR ("Error uploading session " +:+ sid)])).
Proof.
  intros rq o Hf Hid Hsize Htext Hacc HA.
  unfold upload_step. rewrite path_name_join, Hid.
  unfold try_except, bind at 1.
  rewrite (upload_session_requested _ _ _ _ _ _ fd t Hf Hsize Htext).
  fold rq. fold o. rewrite Hacc.
  unfold _archive_session, mkdir_exist_ok. munfold. simpl.
  fold (archive_dir d). rewrite HA. simpl.
  by rewrite <- app_assoc.
Qed.

(** X7: a transcript within the size limit that is not UTF-8 text is
    reported by the handler of the upload loop in an entry that starts
    ["Error uploading <id>: "] and goes on with the text of the decoding
    error; one error is logged, no request is sent, and the count and the
    files stay as they were. *)
Theorem undecodable_transcript_is_reported_unsent (agent_id : string)
    (d : path) (endpoint api_key : string) (n sid : string) (fd : file_data)
    (acc : Z * list string) (w : world) :
  fs w !! path_join d n = Some (File fd) →
  _extract_session_id n = Some sid →
  st_size fd ≤ MAX_TRANSCRIPT_BYTES →
  text fd = None →
  ∃ detail,
    upload_step agent_id d endpoint api_key (path_join d n) acc w
    = (Ok (acc.1, acc.2 ++ ["Error uploading " +:+ sid +:+ ": " +:+ detail]),
       World (fs w) (clock w)
             (trace w ++ [EvLog ERROR ("Error uploading session " +:+ sid)])).
Proof.
  intros Hf Hid Hsize Htext. exists (str_exn UnicodeDecodeError).
  unfold upload_step. rewrite path_name_join, Hid.
  unfold try_except, bind.
  by rewrite (upload_session_unreadable _ _ _ _ _ _ fd Hf Hsize Htext).
Qed.

End agents_and_local_failures.

(** ** The scheduler *)

Lemma mark_runs_logs {A} (lvl : level) (msg : A → string) (l : list A) :
  mark_runs ((λ x, EvLog lvl (msg x)) <$> l) = [].
Proof. by induction l. Qed.

(** [run_job] always returns: the result of [run], or the failed result
    when [run] raised; the job comes back marked at the clock [run] left;
    after [run] the trace holds one [mark_run] and log records. *)
Lemma run_job_returns (run : run_method) (job : Job.t)
    (endpoint api_key : string) (w : world) :
  let w0 := World (fs w) (clock w)
                  (trace w ++ [EvLog INFO ("Running job: " +:+ Job.id job)]) in
  let w1 := (run job endpoint api_key w0).2 in
  ∃ res evs,
    run_job run job endpoint api_key w
    = (Ok (res, marked job (clock w1)),
       World (fs w1) (clock w1) (trace w1 ++ evs)) ∧
    (∀ r, (run job endpoint api_key w0).1 = Ok r → res = r) ∧
    mark_runs evs = [Job.id job].
Proof.
  intros w0 w1. subst w1.
  destruct (run job endpoint api_key w0) as [[result|e] w1] eqn:Hrun.
  - unfold run_job, Job.mark_run. munfold. fold w0. rewrite Hrun. simpl.
    match goal with
    | |- context [for_each ?l tt _ ?w'] =>
        pose proof (for_each_log l
          (λ error, EvLog WARNING ("Job " +:+ Job.id job +:+ ": " +:+ error))
          w') as Hlog
    end.
    unfold emit in Hlog. rewrite Hlog. simpl.
    eexists result, _. rewrite <- !app_assoc. split; [done|].
    split; [by intros r [= ->]|]. simpl. unfold mark_runs. simpl. f_equal.
    apply mark_runs_logs.
  - unfold run_job, Job.mark_run. munfold. fold w0. rewrite Hrun. simpl.
    eexists _, _. rewrite <- !app_assoc. split; [done|]. by split.
Qed.

Lemma is_due_value (job : Job.t) (w : world) :
  Job.is_due job w = (Ok (due_at (clock w) job), w).
Proof. unfold Job.is_due, due_at. by destruct (Job.last_run job). Qed.

(** X8: [run_job] always returns, whatever [run] does, and hands the job
    back with [last_run] set to the clock at its return and every other
    field as it was; from then on [is_due] is false until
    [interval_minutes] minutes have gone by on the clock, and true after. *)
Theorem job_is_not_due_again_before_its_interval (run : run_method)
    (job : Job.t) (endpoint api_key : string) (w : world) :
  ∃ res job' w',
    run_job run job endpoint api_key w = (Ok (res, job'), w') ∧
    Job.last_run job' = Some (clock w') ∧
    same_job (run, job) (run, job') ∧
    ∀ w2,
      (clock w2 - clock w' < Job.interval_minutes job * 60 * 1000000 →
       Job.is_due job' w2 = (Ok false, w2)) ∧
      (Job.interval_minutes job * 60 * 1000000 ≤ clock w2 - clock w' →
       Job.is_due job' w2 = (Ok true, w2)).
Proof.
  destruct (run_job_returns run job endpoint api_key w)
    as (res & evs & Hrun & _ & _). simpl in Hrun.
  eexists _, _, _. split; [exact Hrun|]. simpl. split; [done|].
  split; [by repeat split|]. intros w2. rewrite is_due_value.
  unfold due_at. simpl. split; intros Ht.
  - by rewrite bool_decide_eq_false_2 by lia.
  - by rewrite bool_decide_eq_true_2 by lia.
Qed.

(** One turn of the pass on one job. *)
Lemma scheduler_turn (endpoint api_key : string) (job : job_object)
    (seen : list job_object) (w : world) :
  ∃ job' w',
    (if negb (Job.enabled job.2) then ret (seen ++ [job])
     else
       bind (Job.is_due job.2) (λ due,
         if negb due then ret (seen ++ [job])
         else bind (run_job job.1 job.2 endpoint api_key)
                   (λ r, ret (seen ++ [(job.1, r.2)])))) w
    = (Ok (seen ++ [job']), w') ∧
    same_job job job' ∧
    (Job.enabled job.2 && due_at (clock w) job.2 = false →
     job' = job ∧ w' = w) ∧
    (Job.enabled job.2 = true → is_Some (Job.last_run job'.2)).
Proof.
  destruct job as [run job]. simpl.
  destruct (Job.enabled job) eqn:Hen; simpl.
  2:{ exists (run, job), w. split; [done|]. split; [by repeat split|]. done. }
  unfold bind at 1. rewrite is_due_value.
  destruct (due_at (clock w) job) eqn:Hdue; simpl.
  2:{ exists (run, job), w. split; [done|]. split; [by repeat split|].
      split; [done|]. intros _. unfold due_at in Hdue. simpl.
      destruct (Job.last_run job); [eauto|done]. }
  destruct (run_job_returns run job endpoint api_key w)
    as (res & evs & Hrun & _ & _). simpl in Hrun.
  unfold bind. rewrite Hrun. munfold. simpl.
  eexists (run, _), _. split; [done|]. split; [by repeat split|].
  split; [done|]. simpl. eauto.
Qed.

(** X9: a pass of the scheduler over any jobs returns, and returns the same
    jobs in the same order, differing at most in [last_run]: a disabled job
    comes back as it was, and an enabled job has a [last_run] afterwards. *)
Theorem scheduler_pass_keeps_the_jobs (endpoint api_key : string)
    (jobs : list job_object) (w : world) :
  ∃ jobs' w',
    scheduler_pass endpoint api_key jobs w = (Ok jobs', w') ∧
    Forall2 (λ j j',
               same_job j j' ∧
               (Job.enabled j.2 = false → j' = j) ∧
               (Job.enabled j.2 = true → is_Some (Job.last_run j'.2)))
            jobs jobs'.
Proof.
  unfold scheduler_pass.
  cut (∀ seen w, ∃ jobs' w',
         for_each jobs seen
           (λ job seen,
              if negb (Job.enabled job.2) then ret (seen ++ [job])
              else
                bind (Job.is_due job.2) (λ due,
                  if negb due then ret (seen ++ [job])
                  else bind (run_job job.1 job.2 endpoint api_key)
                            (λ r, ret (seen ++ [(job.1, r.2)])))) w
         = (Ok (seen ++ jobs'), w') ∧
         Forall2 (λ j j',
               same_job j j' ∧
               (Job.enabled j.2 = false → j' = j) ∧
               (Job.enabled j.2 = true → is_Some (Job.last_run j'.2)))
            jobs jobs').
  { intros Hgen. destruct (Hgen [] w) as (jobs' & w' & Heq & HR). eauto. }
  induction jobs as [|job jobs IH]; intros seen w0.
  - exists [], w0. rewrite app_nil_r. by split.
  - destruct (scheduler_turn endpoint api_key job seen w0)
      as (job' & w1 & Hturn & Hsame & Hskip & Hmark).
    destruct (IH (seen ++ [job']) w1) as (jobs' & w2 & Hrest & HR).
    exists (job' :: jobs'), w2. simpl. unfold bind at 1. rewrite Hturn.
    rewrite Hrest, <- app_assoc. split; [done|].
    constructor; [|done]. split_and!; try done.
    intros Hoff. apply Hskip. by rewrite Hoff.
Qed.

(** A pass in which no enabled job is due, from any accumulator. *)
Lemma idle_pass_from (endpoint api_key : string) (jobs : list job_object)
    (w : world) :
  ∀ seen,
    Forall (λ j, Job.enabled j.2 && due_at (clock w) j.2 = false) jobs →
    for_each jobs seen
      (λ job seen,
         if negb (Job.enabled job.2) then ret (seen ++ [job])
         else
           bind (Job.is_due job.2) (λ due,
             if negb due then ret (seen ++ [job])
             else bind (run_job job.1 job.2 endpoint api_key)
                       (λ r, ret (seen ++ [(job.1, r.2)])))) w
    = (Ok (seen ++ jobs), w).
Proof.
  induction jobs as [|job jobs IH]; intros seen Hall.
  - simpl. by rewrite app_nil_r.
  - apply Forall_cons in Hall as [Hjob Hall].
    destruct (scheduler_turn endpoint api_key job seen w)
      as (job' & w1 & Hturn & _ & Hskip & _).
    destruct (Hskip Hjob) as [-> ->].
    simpl. unfold bind at 1. rewrite Hturn.
    rewrite (IH _ Hall), <- app_assoc. done.
Qed.

(** X10: a pass in which no enabled job is due returns the jobs as they
    were and changes nothing in the world: no log record, no request, no
    file touched. *)
Theorem pass_with_nothing_due_does_nothing (endpoint api_key : string)
    (jobs : list job_object) (w : world) :
  Forall (λ j, Job.enabled j.2 && due_at (clock w) j.2 = false) jobs →
  scheduler_pass endpoint api_key jobs w = (Ok jobs, w).
Proof.
  intros Hall. unfold scheduler_pass.
  exact (idle_pass_from endpoint api_key jobs w [] Hall).
Qed.

(** X11: while every job is disabled the main loop only sleeps: after any
    number of passes the files and the trace are as before, and the clock
    has moved on by sixty seconds a pass. *)
Theorem disabled_jobs_never_run (passes : nat) (endpoint api_key : string)
    (jobs : list job_object) (w : world) :
  Forall (λ j, Job.enabled j.2 = false) jobs →
  scheduler_loop passes endpoint api_key jobs w
  = (Ok tt,
     World (fs w) (clock w + Z.of_nat passes * 60 * 1000000) (trace w)).
Proof.
  intros Hoff. revert w. induction passes as [|n IH]; intros w.
  - simpl. unfold ret. destruct w. simpl. do 2 f_equal. lia.
  - simpl. unfold bind at 1.
    unfold scheduler_pass. rewrite (idle_pass_from _ _ _ _ []).
    2:{ eapply Forall_impl; [exact Hoff|]. intros j Hj. by rewrite Hj. }
    unfold bind, time_sleep. rewrite IH. simpl. do 2 f_equal. lia.
Qed.

Section scheduler_of_uploads.
Context `{Environment}.

Lemma run_event_no_mark_runs (endpoint api_key : string) (l : list string)
    (evs : list event) :
  Forall (run_event endpoint api_key l) evs → mark_runs evs = [].
Proof.
  induction 1 as [|ev evs Hev _ IH]; [done|].
  unfold mark_runs in *. simpl. by destruct ev.
Qed.

Lemma mark_runs_app (l1 l2 : list event) :
  mark_runs (l1 ++ l2) = mark_runs l1 ++ mark_runs l2.
Proof. unfold mark_runs. apply omap_app. Qed.




(** *** A pass, however long the runs take *)







(** [load_jobs] keeps the specifications of a known type, in order, as
    fresh jobs, and logs one record per specification. *)
Lemma load_jobs_value (config : Config.t) (w : world) :
  load_jobs config w
  = (Ok ((λ jc, (run : run_method, fresh_job jc (Config.agents config)))
         <$> filter (λ jc, JobConfig.type jc = "session_upload")
                    (Config.jobs config)),
     World (fs w) (clock w) (trace w ++ (load_record <$> Config.jobs config))).
Proof.
  unfold load_jobs.
  cut (∀ seen w,
         for_each (Config.jobs config) seen
           (λ job_config jobs,
              bind (create_job job_config (Config.agents config)) (λ job,
                match job with
                | Some job =>
                    bind (log INFO
                            ("Loaded job: " +:+ Job.id job.2 +:+ " (type="
                             +:+ Job.type job.2 +:+ ", enabled="
                             +:+ str_bool (Job.enabled job.2) +:+ ")"))
                         (λ _, ret (jobs ++ [job]))
                | None => ret jobs
                end)) w
         = (Ok (seen ++
                ((λ jc, (run : run_method, fresh_job jc (Config.agents config)))
                 <$> filter (λ jc, JobConfig.type jc = "session_upload")
                            (Config.jobs config))),
            World (fs w) (clock w)
                  (trace w ++ (load_record <$> Config.jobs config)))).
  { intros Hgen. apply (Hgen []). }
  induction (Config.jobs config) as [|jc jcs IH]; intros seen w0.
  - simpl. rewrite !app_nil_r. by destruct w0.
  - simpl. unfold bind at 1, create_job, job_types. rewrite filter_cons.
    unfold load_record at 1.
    destruct (decide (JobConfig.type jc = "session_upload")) as [Hty|Hty].
    + rewrite bool_decide_eq_true_2 by done. munfold. simpl.
      rewrite IH. simpl. by rewrite <- !app_assoc.
    + rewrite bool_decide_eq_false_2 by done. munfold. simpl.
      rewrite IH. simpl. by rewrite <- !app_assoc.
Qed.


(** X14: with no specification of a known type, [run_scheduler] logs one
    ["Unknown job type"] error per specification and then
    ["No jobs configured"], and returns without entering the main loop,
    whatever the number of passes allowed. *)
Theorem scheduler_without_known_jobs_returns (passes : nat)
    (config : Config.t) (w : world) :
  Forall (λ jc, JobConfig.type jc ≠ "session_upload") (Config.jobs config) →
  run_scheduler passes config w
  = (Ok tt,
     World (fs w) (clock w)
           (trace w ++ [EvLog INFO "Starting Nexus Worker"]
            ++ (load_record <$> Config.jobs config)
            ++ [EvLog ERROR "No jobs configured"])).
Proof.
  intros Hnone. unfold run_scheduler. unfold bind at 1, log, emit.
  unfold bind at 1. rewrite load_jobs_value. simpl.
  assert (Hfilter : filter (λ jc, JobConfig.type jc = "session_upload")
                           (Config.jobs config) = []).
  { induction Hnone as [|jc jcs Hjc _ IH]; [done|].
    rewrite filter_cons. by rewrite decide_False. }
  rewrite Hfilter. simpl. by rewrite <- !app_assoc.
Qed.

(** X15: [run_single_job] returns [None] after ["Job not found: <id>"] when
    no specification has the id; otherwise it takes the first specification
    with that id, returns [None] after ["Unknown job type: ..."] when its
    type is unknown, and else runs the job once and returns the result of
    [run], whether the specification is enabled or not, calling [mark_run]
    once. *)
Theorem run_single_job_ignores_enabled_and_interval (config : Config.t)
    (job_id : string) (w : world) :
  let w0 := World (fs w) (clock w)
                  (trace w ++ [EvLog INFO ("Running single job: " +:+ job_id)]) in
  (Forall (λ jc, JobConfig.id jc ≠ job_id) (Config.jobs config) →
   run_single_job config job_id w
   = (Ok None,
      World (fs w) (clock w)
            (trace w0 ++ [EvLog ERROR ("Job not found: " +:+ job_id)]))) ∧
  (∀ before jc after,
     Config.jobs config = before ++ jc :: after →
     Forall (λ jc', JobConfig.id jc' ≠ job_id) before →
     JobConfig.id jc = job_id →
     (JobConfig.type jc ≠ "session_upload" →
      run_single_job config job_id w
      = (Ok None,
         World (fs w) (clock w)
               (trace w0 ++ [EvLog ERROR ("Unknown job type: "
                                          +:+ JobConfig.type jc)]))) ∧
     (JobConfig.type jc = "session_upload" →
      ∃ res m1 evs1 evs2,
        run (fresh_job jc (Config.agents config)) (Config.endpoint config)
            (Config.api_key config)
            (World (fs w) (clock w)
                   (trace w0 ++ [EvLog INFO ("Running job: " +:+ job_id)]))
        = (Ok res, World m1 (clock w)
                         (trace w0 ++ [EvLog INFO ("Running job: " +:+ job_id)]
                          ++ evs1)) ∧
        run_single_job config job_id w
        = (Ok (Some res),
           World m1 (clock w)
                 (trace w0 ++ [EvLog INFO ("Running job: " +:+ job_id)]
                  ++ evs1 ++ evs2)) ∧
        mark_runs (evs1 ++ evs2) = [job_id])).
Proof.
  intros w0. split.
  - intros Hnone. unfold run_single_job. unfold bind at 1, log, emit.
    assert (Hfind : List.find (λ jc, bool_decide (JobConfig.id jc = job_id))
                              (Config.jobs config) = None).
    { induction Hnone as [|jc jcs Hjc _ IH]; [done|]. simpl.
      by rewrite bool_decide_eq_false_2. }
    rewrite Hfind. done.
  - intros before jc after Hjobs Hbefore Hid.
    assert (Hfind : List.find (λ jc, bool_decide (JobConfig.id jc = job_id))
                              (Config.jobs config) = Some jc).
    { rewrite Hjobs. clear Hjobs.
      induction Hbefore as [|jc' jcs Hjc _ IH]; simpl.
      - by rewrite bool_decide_eq_true_2.
      - by rewrite bool_decide_eq_false_2. }
    split.
    + intros Hty. unfold run_single_job. unfold bind at 1, log, emit.
      rewrite Hfind. unfold bind at 1, create_job, job_types.
      rewrite bool_decide_eq_false_2 by done. done.
    + intros Hty. subst job_id.
      pose (job := fresh_job jc (Config.agents config)).
      pose proof (run_job_returns run job (Config.endpoint config)
                    (Config.api_key config) w0) as Hret.
      cbv zeta in Hret. change (Job.id job) with (JobConfig.id jc) in Hret.
      destruct (run_events job (Config.endpoint config) (Config.api_key config)
                  (World (fs w0) (clock w0)
                     (trace w0 ++ [EvLog INFO ("Running job: "
                                               +:+ JobConfig.id jc)])))
        as (r & m1 & evs1 & Hjob & Hev1).
      rewrite Hjob in Hret.
      destruct Hret as (res & evs2 & Hrun & Hres & Hmarks).
      specialize (Hres r eq_refl). subst res.
      exists r, m1, evs1, evs2. split_and!.
      * rewrite (app_assoc (trace w0)). exact Hjob.
      * unfold run_single_job. unfold bind at 1, log, emit.
        rewrite Hfind. unfold bind at 1, create_job, job_types.
        rewrite bool_decide_eq_true_2 by done. unfold ret at 1.
        unfold bind at 1.
        lazymatch goal with
        | |- match ?t with _ => _ end = _ =>
            lazymatch type of Hrun with
            | _ = ?rhs => assert (Hstep : t = rhs) by exact Hrun
            end
        end.
        rewrite Hstep. simpl. by rewrite <- !app_assoc.
      * rewrite mark_runs_app, Hmarks.
        by rewrite (run_event_no_mark_runs _ _ _ _ Hev1).
Qed.

End scheduler_of_uploads.

(** *** Archiving a name the archive already holds *)

(** X16: when the archive already holds a regular file under the name of
    the session file, [_archive_session] succeeds and replaces it: the
    session file is gone from the sessions directory, the archive entry now
    holds its content, and no other entry changes. *)
Theorem archiving_replaces_an_earlier_copy (d : path) (n : string)
    (fd old : file_data) (w : world) :
  fs w !! path_join d n = Some (File fd) →
  n ≠ "archive" →
  fs w !! archive_dir d = Some Dir →
  fs w !! archive_dest d n = Some (File old) →
  ∃ w',
    _archive_session (path_join d n) d w = (Ok tt, w') ∧
    trace w' = trace w ++ [EvMove (path_join d n) (archive_dest d n)] ∧
    fs w' !! path_join d n = None ∧
    fs w' !! archive_dest d n = Some (File fd) ∧
    ∀ p, p ≠ path_join d n → p ≠ archive_dest d n → fs w' !! p = fs w !! p.
Proof.
  intros Hf Hn HA HD.
  destruct (archive_paths_distinct d n n Hn) as (HFA & HFD & HFE & HDA & HEA & HDE).
  unfold _archive_session. rewrite path_name_join.
  fold (archive_dir d). fold (archive_dest d n).
  unfold shutil_move, mkdir_exist_ok, os_rename. munfold. simpl.
  rewrite HA. simpl. rewrite HD, Hf. simpl.
  eexists. split; [reflexivity|]. simpl. split; [done|].
  split; [by simplify_map_eq|]. split; [by simplify_map_eq|].
  intros p Hp1 Hp2. by simplify_map_eq.
Qed.

(** ** The sample deployment, continued *)

(** The job asked to process an agent the configuration does not know. *)
Lemma unknown_agent_is_reported_witness :
  let job := sample_job {[ "agents" := ["ghost"] ]} in
  Job.config job !! "agents" = Some ["ghost"] ∧
  Job.agents job !! "ghost" = None ∧
  ∃ res w',
    run (H := sample_endpoint 200) job "https://nexus" "key" sample_world
    = (Ok res, w') ∧
    "Agent not found in config: ghost" ∈ JobResult.errors res ∧
    (JobResult.success res = true ↔ 0 < JobResult.items_processed res).
Proof.
  intros job.
  assert (Hcfg : Job.config job !! "agents" = Some ["ghost"])
    by (vm_compute; reflexivity).
  assert (Hnone : Job.agents job !! "ghost" = None)
    by (vm_compute; reflexivity).
  split; [exact Hcfg|]. split; [exact Hnone|].
  apply (unknown_agent_is_reported (H := sample_endpoint 200) job
           "https://nexus" "key" sample_world "ghost");
    [|exact Hnone].
  rewrite Hcfg. simpl. apply list_elem_of_here.
Defined.

(** The sample job on a machine where the agent's directory is missing. *)
Lemma missing_directories_are_no_error_witness :
  let job := sample_job {[ "agents" := ["a1"] ]} in
  let w := World ∅ 0 [] in
  Job.config job !! "agents" = Some ["a1"] ∧
  Job.agents job !! "a1" = Some (AgentConfig.Make "/home/a1" sample_dir) ∧
  fs w !! sample_dir = None ∧
  run (H := sample_endpoint 200) job "https://nexus" "key" w
  = (Ok (JobResult.Make "upload" true "Uploaded 0 sessions" 0 []),
     World ∅ 0 (missing_dir_warning job <$> ["a1"])).
Proof.
  intros job w.
  assert (Hcfg : Job.config job !! "agents" = Some ["a1"])
    by (vm_compute; reflexivity).
  assert (Hagent : Job.agents job !! "a1"
                   = Some (AgentConfig.Make "/home/a1" sample_dir))
    by (vm_compute; reflexivity).
  assert (Hdir : fs w !! sample_dir = None) by (vm_compute; reflexivity).
  split; [exact Hcfg|]. split; [exact Hagent|]. split; [exact Hdir|].
  apply (missing_directories_are_no_error (H := sample_endpoint 200) job
           "https://nexus" "key" w ["a1"] Hcfg).
  - discriminate.
  - constructor; [|constructor].
    exists (AgentConfig.Make "/home/a1" sample_dir). by split.
Defined.

(** The sample transcript is accepted, but [archive] is a regular file. *)
Lemma blocked_archive_is_reported_after_upload_witness :
  let w := World blocked_fs 0 [] in
  let sid := "22222222-2222-2222-2222-222222222222" in
  let rq := upload_request "a1" sid "hello" "https://nexus" "key" in
  let o := Response 200 "server error" in
  fs w !! archive_dir sample_dir = Some (File (FileData 0 (Some ""))) ∧
  accepted o = true ∧
  upload_step (H := sample_endpoint 200) "a1" sample_dir "https://nexus" "key"
              (path_join sample_dir sample_session) (0, []) w
  = (Ok (0, ["Error uploading " +:+ sid +:+ ": "
             +:+ str_exn (FileExistsError (archive_dir sample_dir))]),
     World blocked_fs 0
           (EvPost rq o :: response_log sid o
            ++ [EvLog ERROR ("Error uploading session " +:+ sid)])).
Proof.
  intros w sid rq o.
  assert (HA : fs w !! archive_dir sample_dir
               = Some (File (FileData 0 (Some ""))))
    by (vm_compute; reflexivity).
  assert (Hacc : accepted o = true) by reflexivity.
  split; [exact HA|]. split; [exact Hacc|].
  apply (blocked_archive_is_reported_after_upload (H := sample_endpoint 200)
           "a1" sample_dir "https://nexus" "key" sample_session sid "hello"
           sample_transcript (FileData 0 (Some "")) (0, []) w).
  - vm_compute. reflexivity.
  - vm_compute. reflexivity.
  - vm_compute. discriminate.
  - reflexivity.
  - exact Hacc.
  - exact HA.
Defined.

(** The sample transcript, holding bytes that are no UTF-8 text. *)
Lemma undecodable_transcript_is_reported_unsent_witness :
  let w := World (sample_fs (FileData 5120 None)) 0 [] in
  let sid := "22222222-2222-2222-2222-222222222222" in
  fs w !! path_join sample_dir sample_session
  = Some (File (FileData 5120 None)) ∧
  ∃ detail,
    upload_step (H := sample_endpoint 200) "a1" sample_dir "https://nexus"
                "key" (path_join sample_dir sample_session) (0, []) w
    = (Ok (0, ["Error uploading " +:+ sid +:+ ": " +:+ detail]),
       World (fs w) 0 [EvLog ERROR ("Error uploading session " +:+ sid)]).
Proof.
  intros w sid.
  assert (Hf : fs w !! path_join sample_dir sample_session
               = Some (File (FileData 5120 None)))
    by (vm_compute; reflexivity).
  split; [exact Hf|].
  apply (undecodable_transcript_is_reported_unsent (H := sample_endpoint 200)
           "a1" sample_dir "https://nexus" "key" sample_session sid
           (FileData 5120 None) (0, []) w Hf).
  - vm_compute. reflexivity.
  - vm_compute. discriminate.
  - reflexivity.
Defined.

(** The sample job, one minute after it ran: its interval is five. *)
Lemma pass_with_nothing_due_does_nothing_witness :
  let job := marked (sample_job {[ "agents" := ["a1"] ]}) 0 in
  let w := World (sample_fs sample_transcript) 60000000 [] in
  Job.enabled job = true ∧
  due_at (clock w) job = false ∧
  scheduler_pass "https://nexus" "key"
                 [(run (H := sample_endpoint 200), job)] w
  = (Ok [(run (H := sample_endpoint 200), job)], w).
Proof.
  intros job w. split; [reflexivity|].
  assert (Hdue : due_at (clock w) job = false) by (vm_compute; reflexivity).
  split; [exact Hdue|].
  apply (pass_with_nothing_due_does_nothing "https://nexus" "key"
           [(run (H := sample_endpoint 200), job)] w).
  constructor; [exact Hdue|constructor].
Defined.

(** Three passes over the sample job switched off: three minutes go by. *)
Lemma disabled_jobs_never_run_witness :
  Job.enabled disabled_job = false ∧
  scheduler_loop 3 "https://nexus" "key"
                 [(run (H := sample_endpoint 200), disabled_job)] sample_world
  = (Ok tt, World (sample_fs sample_transcript) 180000000 []).
Proof.
  split; [reflexivity|].
  apply (disabled_jobs_never_run 3 "https://nexus" "key"
           [(run (H := sample_endpoint 200), disabled_job)] sample_world).
  constructor; [reflexivity|constructor].
Defined.

(** A configuration whose only job is of a type the worker does not know. *)
Lemma scheduler_without_known_jobs_returns_witness :
  run_scheduler (H := sample_endpoint 200) 3 (sample_config "cleanup" true)
                sample_world
  = (Ok tt,
     World (sample_fs sample_transcript) 0
           [EvLog INFO "Starting Nexus Worker";
            EvLog ERROR "Unknown job type: cleanup";
            EvLog ERROR "No jobs configured"]).
Proof.
  apply (scheduler_without_known_jobs_returns (H := sample_endpoint 200) 3
           (sample_config "cleanup" true) sample_world).
  constructor; [discriminate|constructor].
Defined.

(** The sample job, switched off in the configuration, asked for by id. *)
Lemma run_single_job_ignores_enabled_and_interval_witness :
  let config := sample_config "session_upload" false in
  ∃ res w',
    run_single_job (H := sample_endpoint 200) config "upload" sample_world
    = (Ok (Some res), w') ∧
    mark_runs (trace w') = ["upload"].
Proof.
  intros config.
  destruct (run_single_job_ignores_enabled_and_interval
              (H := sample_endpoint 200) config "upload" sample_world)
    as [_ Hfound].
  destruct (Hfound [] (JobConfig.Make "upload" "session_upload" false 5
                                      {[ "agents" := ["a1"] ]})
                   [] eq_refl (List.Forall_nil _) eq_refl) as [_ Hknown].
  destruct (Hknown eq_refl) as (res & m1 & evs1 & evs2 & _ & Hrun & Hmarks).
  exists res. eexists. split; [exact Hrun|].
  exact Hmarks.
Defined.

(** The sample transcript, archived once before under the same name. *)
Lemma archiving_replaces_an_earlier_copy_witness :
  let w := World rearchive_fs 0 [] in
  let f := path_join sample_dir sample_session in
  fs w !! archive_dest sample_dir sample_session
  = Some (File (FileData 3 (Some "old"))) ∧
  ∃ w',
    _archive_session f sample_dir w = (Ok tt, w') ∧
    fs w' !! f = None ∧
    fs w' !! archive_dest sample_dir sample_session
    = Some (File sample_transcript).
Proof.
  intros w f.
  assert (HD : fs w !! archive_dest sample_dir sample_session
               = Some (File (FileData 3 (Some "old"))))
    by (vm_compute; reflexivity).
  split; [exact HD|].
  destruct (archiving_replaces_an_earlier_copy sample_dir sample_session
              sample_transcript (FileData 3 (Some "old")) w)
    as (w' & Hmove & _ & Hgone & Hnew & _).
  - vm_compute. reflexivity.
  - discriminate.
  - vm_compute. reflexivity.
  - exact HD.
  - exists w'. split; [exact Hmove|]. split; [exact Hgone|exact Hnew].
Defined.

